(** * CartHaven: the cart and catalogue state of [home.tsx]

    A shallow embedding of the state logic of the [EcommerceApp] component
    (src/home.tsx): the catalogue fetch, the derived list of visible
    products, and the three cart operations with the two derived totals.

    Modelling conventions.
    - A JavaScript array is a [list]; the callbacks handed to [find],
      [map], [filter] and [reduce] are boolean or binary functions and
      are handed to [List.find], [List.map], [List.filter] and
      [List.fold_left] unchanged.
    - Product identifiers, quantities and deltas are integers ([Z]); the
      model covers the range in which JavaScript's number arithmetic on
      integers is exact.  Prices and rating averages are IEEE 754 doubles
      ([double]) with the rounded operations of the language; an integer
      enters a product through [Z2float], the nearest double.
    - A string is modelled by the UTF-8 bytes of its text; [===] and
      [includes] on well-formed text are equality and containment of the
      bytes.  [String.prototype.toLowerCase] is a built-in of the
      language, not code of the component: the component is modelled over
      any function in its place ([LowerCase]), of which only
      [''.toLowerCase() === ''] is used.  [lowerLatinGreek] computes the
      built-in on Basic Latin and Greek text and serves to run examples.
    - [useState] cells are fields of an explicit state; every handler is
      a function from the state it closes over to the state it commits. *)

From Stdlib Require Import ZArith QArith List Bool String Ascii Lia Sorted.
From Stdlib Require SpecFloat.
Import ListNotations.

Local Open Scope Z_scope.

(** ** Numbers *)

(** A JavaScript number that need not be an integer: a binary64 value,
    with the correctly rounded operations of IEEE 754 (53 bits of
    precision, exponents up to 1024). *)
Definition double : Set := SpecFloat.spec_float.

Definition fadd : double -> double -> double := SpecFloat.SFadd 53 1024.

Definition fmul : double -> double -> double := SpecFloat.SFmul 53 1024.

Definition fdiv : double -> double -> double := SpecFloat.SFdiv 53 1024.

(** The double nearest to an integer (ties to even): how an integer
    quantity takes part in double arithmetic. *)
Definition Z2float (z : Z) : double :=
  SpecFloat.binary_normalize 53 1024 z 0 false.

(** ** Data model (home.tsx, lines 4-26) *)

Record Rating : Type := mkRating {
  rate : double;
  count : Z
}.

Record Product : Type := mkProduct {
  id : Z;
  title : string;
  price : double;
  description : option string;
  category : string;
  image : string;
  rating : Rating
}.

(** [interface CartItem extends Product]: the product's fields, reached
    through the coercion, together with a quantity. *)
Record CartItem : Type := mkCartItem {
  product :> Product;
  quantity : Z
}.

(** The object spread [{ ...item, quantity: q }]. *)
Definition with_quantity (item : CartItem) (q : Z) : CartItem :=
  {| product := product item; quantity := q |}.

(** ** Cart operations (home.tsx, lines 90-116) *)

Definition addToCart (cart : list CartItem) (p : Product) : list CartItem :=
  match find (fun item : CartItem => id item =? id p) cart with
  | Some _existingItem =>
      map (fun item : CartItem =>
             if id item =? id p
             then with_quantity item (quantity item + 1)
             else item) cart
  | None => cart ++ [ {| product := p; quantity := 1 |} ]
  end.

Definition updateQuantity (cart : list CartItem) (i delta : Z) : list CartItem :=
  filter (fun item : CartItem => quantity item >? 0)
    (map (fun item : CartItem =>
            if id item =? i
            then with_quantity item (Z.max 0 (quantity item + delta))
            else item) cart).

Definition removeFromCart (cart : list CartItem) (i : Z) : list CartItem :=
  filter (fun item : CartItem => negb (id item =? i)) cart.

Definition totalCost (cart : list CartItem) : double :=
  fold_left (fun (sum : double) (item : CartItem) =>
               fadd sum
                 (fmul (price item) (Z2float (quantity item))))
            cart (Z2float 0).

Definition totalItems (cart : list CartItem) : Z :=
  fold_left (fun (sum : Z) (item : CartItem) => sum + quantity item) cart 0.

(** ** Cart histories *)

Inductive CartOp : Type :=
| AddToCart (p : Product)
| UpdateQuantity (i delta : Z)
| RemoveFromCart (i : Z).

Definition applyOp (cart : list CartItem) (op : CartOp) : list CartItem :=
  match op with
  | AddToCart p => addToCart cart p
  | UpdateQuantity i delta => updateQuantity cart i delta
  | RemoveFromCart i => removeFromCart cart i
  end.

(** The cart after a history of calls, starting from [useState([])]. *)
Definition runOps (ops : list CartOp) : list CartItem :=
  fold_left applyOp ops [].

(** ** The invariants of the data model *)

Definition ids (cart : list CartItem) : list Z :=
  map (fun item : CartItem => id item) cart.

Definition uniqueIds (cart : list CartItem) : Prop := NoDup (ids cart).

Definition positiveQuantities (cart : list CartItem) : Prop :=
  Forall (fun item : CartItem => 0 < quantity item) cart.

Definition hasId (cart : list CartItem) (i : Z) : Prop := In i (ids cart).

(** The sum of the quantities, written as a recursion on the entries. *)
Fixpoint sumQuantities (cart : list CartItem) : Z :=
  match cart with
  | [] => 0
  | item :: rest => quantity item + sumQuantities rest
  end.

(** The rational number a finite double stands for. *)
Definition exactValue (x : double) : option Q :=
  match x with
  | SpecFloat.S754_zero _ => Some 0%Q
  | SpecFloat.S754_finite s m e =>
      Some ((if s then -1 else 1) * inject_Z (Z.pos m) * 2 ^ e)%Q
  | _ => None
  end.

(** The sum of price times quantity over the cart as a rational number,
    nothing rounded. *)
Fixpoint exactSum (cart : list CartItem) : option Q :=
  match cart with
  | [] => Some 0%Q
  | item :: rest =>
      match exactValue (price item), exactSum rest with
      | Some p, Some r => Some (p * inject_Z (quantity item) + r)%Q
      | _, _ => None
      end
  end.

(** [Subseq l1 l2]: [l1] is [l2] with some elements dropped, the others
    kept in their order. *)
Inductive Subseq {A : Type} : list A -> list A -> Prop :=
| Subseq_nil : Subseq [] []
| Subseq_skip : forall x l1 l2, Subseq l1 l2 -> Subseq l1 (x :: l2)
| Subseq_keep : forall x l1 l2, Subseq l1 l2 -> Subseq (x :: l1) (x :: l2).

(** ** Insertion stamps

    Ghost bookkeeping next to a cart history: a clock counting the calls
    made so far and, for every identifier, the index of the call that
    inserted its current entry.  Only [addToCart] on an identifier that
    is not in the cart writes a stamp; the cart itself is computed by
    [applyOp]. *)

Record Stamped : Type := mkStamped {
  s_cart : list CartItem;
  s_clock : nat;
  s_born : Z -> nat
}.

Definition stampedInit : Stamped :=
  {| s_cart := []; s_clock := 0%nat; s_born := fun _ => 0%nat |}.

Definition stampedStep (s : Stamped) (op : CartOp) : Stamped :=
  {| s_cart := applyOp (s_cart s) op;
     s_clock := S (s_clock s);
     s_born :=
       match op with
       | AddToCart p =>
           match find (fun item : CartItem => id item =? id p) (s_cart s) with
           | Some _ => s_born s
           | None => fun j => if j =? id p then s_clock s else s_born s j
           end
       | _ => s_born s
       end |}.

Definition runStamped (ops : list CartOp) : Stamped :=
  fold_left stampedStep ops stampedInit.

(** ** Text: [String.prototype.toLowerCase] and [includes] *)

(** The built-in lower-casing of the language.  The component is stated
    for any function in its place; the one fact it relies on is that the
    empty string lower-cases to itself. *)
Class LowerCase : Type := {
  toLowerCase : string -> string;
  toLowerCase_empty : toLowerCase "" = ""%string
}.

(** [s.includes(pat)]: [pat] starts at some position of [s]. *)
Fixpoint includes (s pat : string) : bool :=
  if prefix pat s then true
  else match s with
       | EmptyString => false
       | String _ rest => includes rest pat
       end.

(** [s] occurs in [t] as it is written. *)
Definition containsText (t s : string) : Prop :=
  exists before after : string, t = (before ++ s ++ after)%string.

Section Component.
Context {builtin : LowerCase}.

(** What the text filter decides: the lower-cased search text occurs in
    the lower-cased title. *)
Definition lowerContains (t s : string) : Prop :=
  containsText (toLowerCase t) (toLowerCase s).

(** ** Component state (home.tsx, lines 29-36) *)

Record AppState : Type := mkAppState {
  products : list Product;
  filteredProducts : list Product;
  searchQuery : string;
  cart : list CartItem;
  isCartOpen : bool;
  loading : bool;
  error : string;
  selectedCategory : string
}.

Definition initialState : AppState :=
  {| products := []; filteredProducts := []; searchQuery := "";
     cart := []; isCartOpen := false; loading := true; error := "";
     selectedCategory := "all" |}.

Definition setProducts (v : list Product) (st : AppState) : AppState :=
  {| products := v; filteredProducts := filteredProducts st;
     searchQuery := searchQuery st; cart := cart st;
     isCartOpen := isCartOpen st; loading := loading st; error := error st;
     selectedCategory := selectedCategory st |}.

Definition setFilteredProducts (v : list Product) (st : AppState) : AppState :=
  {| products := products st; filteredProducts := v;
     searchQuery := searchQuery st; cart := cart st;
     isCartOpen := isCartOpen st; loading := loading st; error := error st;
     selectedCategory := selectedCategory st |}.

Definition setSearchQuery (v : string) (st : AppState) : AppState :=
  {| products := products st; filteredProducts := filteredProducts st;
     searchQuery := v; cart := cart st;
     isCartOpen := isCartOpen st; loading := loading st; error := error st;
     selectedCategory := selectedCategory st |}.

Definition setLoading (v : bool) (st : AppState) : AppState :=
  {| products := products st; filteredProducts := filteredProducts st;
     searchQuery := searchQuery st; cart := cart st;
     isCartOpen := isCartOpen st; loading := v; error := error st;
     selectedCategory := selectedCategory st |}.

Definition setError (v : string) (st : AppState) : AppState :=
  {| products := products st; filteredProducts := filteredProducts st;
     searchQuery := searchQuery st; cart := cart st;
     isCartOpen := isCartOpen st; loading := loading st; error := v;
     selectedCategory := selectedCategory st |}.

Definition setSelectedCategory (v : string) (st : AppState) : AppState :=
  {| products := products st; filteredProducts := filteredProducts st;
     searchQuery := searchQuery st; cart := cart st;
     isCartOpen := isCartOpen st; loading := loading st; error := error st;
     selectedCategory := v |}.

(** ** The two filter effects (home.tsx, lines 74-88) *)

(** [useEffect(..., [selectedCategory, products])] *)
Definition categoryEffect (st : AppState) : AppState :=
  if (selectedCategory st =? "all")%string
  then setFilteredProducts (products st) st
  else
    let filtered :=
      filter (fun p : Product => (category p =? selectedCategory st)%string)
             (products st) in
    setFilteredProducts filtered st.

(** [useEffect(..., [searchQuery, products, selectedCategory])] *)
Definition searchEffect (st : AppState) : AppState :=
  let filtered :=
    filter (fun product : Product =>
              includes (toLowerCase (title product))
                       (toLowerCase (searchQuery st)))
           (if (selectedCategory st =? "all")%string
            then products st
            else filter (fun p : Product =>
                           (category p =? selectedCategory st)%string)
                        (products st)) in
  setFilteredProducts filtered st.

(** Which of the three inputs differ from the previous render. *)
Record Changed : Type := mkChanged {
  productsChanged : bool;
  categoryChanged : bool;
  searchChanged : bool
}.

Definition anyChanged (ch : Changed) : bool :=
  productsChanged ch || categoryChanged ch || searchChanged ch.

(** After a render React runs, in the order of declaration, the effects
    one of whose dependencies changed.  Neither effect depends on
    [filteredProducts], so the writes below trigger no further effect. *)
Definition runEffects (ch : Changed) (st : AppState) : AppState :=
  let st1 :=
    if categoryChanged ch || productsChanged ch
    then categoryEffect st else st in
  if searchChanged ch || productsChanged ch || categoryChanged ch
  then searchEffect st1 else st1.

(** The predicate of the data model's third invariant. *)
Definition visibleSpec (k s : string) (p : Product) : Prop :=
  (k = "all"%string \/ category p = k) /\ lowerContains (title p) s.

(** ** Catalogue fetch (home.tsx, lines 47-71) *)

(** A thrown value: an [Error] carrying a message, or anything else. *)
Inductive Thrown : Type :=
| ErrorObject (message : string)
| OtherValue.

(** [await response.json()]: the decoded array, or a throw. *)
Inductive JsonResult : Type :=
| Decoded (data : list Product)
| JsonThrows (e : Thrown).

Record Response : Type := mkResponse {
  ok : bool;
  json : JsonResult
}.

(** [await fetch(url)]: resolves with a response or rejects. *)
Inductive FetchResult : Type :=
| Resolved (response : Response)
| Rejected (e : Thrown).

(** The network answers successive requests with successive elements of
    a list; a request made when the list is exhausted never settles. *)
Definition Network : Type := list FetchResult.

(** The [try] block: the new state, or the value thrown. *)
Definition tryBlock (r : FetchResult) (st : AppState) : AppState + Thrown :=
  match r with
  | Rejected e => inr e
  | Resolved response =>
      if negb (ok response)
      then inr (ErrorObject "Failed to fetch products")
      else match json response with
           | JsonThrows e => inr e
           | Decoded data => inl (setFilteredProducts data (setProducts data st))
           end
  end.

Definition catchBlock (err : Thrown) (st : AppState) : AppState :=
  setError (match err with
            | ErrorObject message => message
            | OtherValue => "An error occurred while fetching products"
            end) st.

Definition fetchProducts (net : Network) (st : AppState) : AppState * Network :=
  let st0 := setError "" (setLoading true st) in
  match net with
  | [] => (st0, [])
  | r :: net' =>
      let st1 := match tryBlock r st0 with
                 | inl st' => st'
                 | inr err => catchBlock err st0
                 end in
      (setLoading false st1, net')
  end.

(** [useEffect(() => { fetchProducts(); }, [])]: once, on mount. *)
Definition mount (net : Network) : AppState * Network :=
  fetchProducts net initialState.

(** The outcomes the loader treats as failures of the request itself. *)
Definition requestFailed (r : FetchResult) : Prop :=
  match r with
  | Rejected _ => True
  | Resolved response => ok response = false
  end.

Definition failureText (r : FetchResult) : string :=
  match r with
  | Rejected (ErrorObject message) => message
  | Rejected OtherValue => "An error occurred while fetching products"
  | Resolved _ => "Failed to fetch products"
  end.

(** ** Sample data used to exercise the statements *)

Definition noRating : Rating := {| rate := Z2float 0; count := 0 |}.

Definition shirt : Product :=
  {| id := 1; title := "Mens Casual Slim Fit Shirt"; price := Z2float 10;
     description := None; category := "men's clothing";
     image := "shirt.png"; rating := noRating |}.

Definition ring : Product :=
  {| id := 5; title := "Solid Gold Ring"; price := Z2float 5;
     description := Some "Petite"%string; category := "jewelery";
     image := "ring.png"; rating := noRating |}.

Definition drive : Product :=
  {| id := 9; title := "External Hard Drive"; price := Z2float 64;
     description := None; category := "electronics";
     image := "drive.png"; rating := noRating |}.

Definition entry (p : Product) (q : Z) : CartItem :=
  {| product := p; quantity := q |}.

Definition sampleView : AppState :=
  {| products := [shirt; ring; drive]; filteredProducts := [];
     searchQuery := "SHIRT"; cart := []; isCartOpen := false;
     loading := false; error := ""; selectedCategory := "all" |}.

Definition searchTyped : Changed :=
  {| productsChanged := false; categoryChanged := false;
     searchChanged := true |}.

Definition notFound : FetchResult :=
  Resolved {| ok := false; json := JsonThrows OtherValue |}.

(** ** Where an entry comes from

    [insertedAt ops i k]: call number [k] of the history [ops] is the
    [addToCart] that inserted the entry for [i] found in the final cart:
    it is an [addToCart] of a product with identifier [i], made when the
    cart had no entry for [i], and the cart has had an entry for [i] after
    every call since. *)
Definition insertedAt (ops : list CartOp) (i : Z) (k : nat) : Prop :=
  (exists p : Product, nth_error ops k = Some (AddToCart p) /\ id p = i) /\
  ~ hasId (runOps (firstn k ops)) i /\
  (forall m : nat, (k < m <= List.length ops)%nat -> hasId (runOps (firstn m ops)) i).

(** ** Rendering decisions (home.tsx, lines 143, 190-213, 275, 330) *)

(** The four alternatives of the products area:
    [loading ? ... : error ? ... : filteredProducts.length === 0 ? ... : ...]. *)
Inductive Panel : Type :=
| LoadingPanel
| ErrorPanel (message : string)
| NoProductsPanel
| ProductGrid (shown : list Product).

Definition mainPanel (st : AppState) : Panel :=
  if loading st then LoadingPanel
  else if negb (error st =? "")%string then ErrorPanel (error st)
  else if (List.length (filteredProducts st) =? 0)%nat then NoProductsPanel
  else ProductGrid (filteredProducts st).

(** [totalItems > 0 && <span>...</span>]: the badge on the cart icon. *)
Definition badgeShown (c : list CartItem) : bool := totalItems c >? 0.

(** [cart.length === 0 ? ... : ...]: the empty-cart message. *)
Definition emptyCartShown (c : list CartItem) : bool :=
  (List.length c =? 0)%nat.

(** [cart.length > 0 && ...]: the footer with the total and Checkout. *)
Definition footerShown (c : list CartItem) : bool :=
  (0 <? List.length c)%nat.

(** ** The category bar (home.tsx, lines 38-44 and 157-169) *)

Record Category : Type := mkCategory {
  categoryId : string;
  name : string
}.

Definition categories : list Category :=
  [ {| categoryId := "all"; name := "All Products" |};
    {| categoryId := "electronics"; name := "Electronics" |};
    {| categoryId := "jewelery"; name := "Jewelry" |};
    {| categoryId := "men's clothing"; name := "Men's Clothing" |};
    {| categoryId := "women's clothing"; name := "Women's Clothing" |} ].

(** ** The component as a machine driven by events *)

Definition setCart (v : list CartItem) (st : AppState) : AppState :=
  {| products := products st; filteredProducts := filteredProducts st;
     searchQuery := searchQuery st; cart := v;
     isCartOpen := isCartOpen st; loading := loading st; error := error st;
     selectedCategory := selectedCategory st |}.

Definition setIsCartOpen (v : bool) (st : AppState) : AppState :=
  {| products := products st; filteredProducts := filteredProducts st;
     searchQuery := searchQuery st; cart := cart st;
     isCartOpen := v; loading := loading st; error := error st;
     selectedCategory := selectedCategory st |}.

(** The part of [fetchProducts] that runs once the awaited request has
    settled: the rest of [try], then [catch], then [finally]. *)
Definition settle (r : FetchResult) (st : AppState) : AppState :=
  setLoading false
    (match tryBlock r st with
     | inl st' => st'
     | inr err => catchBlock err st
     end).

(** [setProducts(data)] is reached exactly when the [try] block does not
    throw; the array it stores is a fresh one. *)
Definition catalogueWritten (r : FetchResult) (st : AppState) : bool :=
  match tryBlock r st with
  | inl _ => true
  | inr _ => false
  end.

Inductive Event : Type :=
| FetchSettled (r : FetchResult)
| SearchChange (v : string)
| CategoryClick (k : string)
| AddToCartClick (p : Product)
| MinusClick (i : Z)
| PlusClick (i : Z)
| TrashClick (i : Z)
| CartIconClick
| CloseCartClick.

(** One event: the state written by the handler, then the effects whose
    dependencies differ from the previous render.  Setting a cell to the
    value it holds changes no dependency. *)
Definition dispatch (st : AppState) (ev : Event) : AppState :=
  match ev with
  | FetchSettled r =>
      runEffects {| productsChanged := catalogueWritten r st;
                    categoryChanged := false; searchChanged := false |}
                 (settle r st)
  | SearchChange v =>
      runEffects {| productsChanged := false; categoryChanged := false;
                    searchChanged := negb (searchQuery st =? v)%string |}
                 (setSearchQuery v st)
  | CategoryClick k =>
      runEffects {| productsChanged := false;
                    categoryChanged := negb (selectedCategory st =? k)%string;
                    searchChanged := false |}
                 (setSelectedCategory k st)
  | AddToCartClick p => setCart (addToCart (cart st) p) st
  | MinusClick i => setCart (updateQuantity (cart st) i (-1)) st
  | PlusClick i => setCart (updateQuantity (cart st) i 1) st
  | TrashClick i => setCart (removeFromCart (cart st) i) st
  | CartIconClick => setIsCartOpen true st
  | CloseCartClick => setIsCartOpen false st
  end.

(** The state once the component has mounted: the synchronous start of
    [fetchProducts] and the first run of both filter effects. *)
Definition started : AppState :=
  runEffects {| productsChanged := true; categoryChanged := true;
                searchChanged := true |}
             (setError "" (setLoading true initialState)).

Definition runEvents (evs : list Event) : AppState :=
  fold_left dispatch evs started.

(** The cart calls made by a list of events. *)
Definition cartOp (ev : Event) : list CartOp :=
  match ev with
  | AddToCartClick p => [AddToCart p]
  | MinusClick i => [UpdateQuantity i (-1)]
  | PlusClick i => [UpdateQuantity i 1]
  | TrashClick i => [RemoveFromCart i]
  | _ => []
  end.

Definition cartOps (evs : list Event) : list CartOp := flat_map cartOp evs.

(** What the page offers in a state: the request can settle while it is
    pending; a category button exists for the five categories; an Add to
    Cart button exists for each product of the grid; the minus, plus and
    remove buttons exist for each line of the cart. *)
Definition enabled (st : AppState) (ev : Event) : Prop :=
  match ev with
  | FetchSettled _ => loading st = true
  | SearchChange _ => True
  | CategoryClick k => In k (map categoryId categories)
  | AddToCartClick p =>
      exists shown : list Product,
        mainPanel st = ProductGrid shown /\ In p shown
  | MinusClick i | PlusClick i | TrashClick i => hasId (cart st) i
  | CartIconClick | CloseCartClick => True
  end.

Inductive Reachable : AppState -> Prop :=
| Reachable_started : Reachable started
| Reachable_step : forall st ev,
    Reachable st -> enabled st ev -> Reachable (dispatch st ev).

(** The visible list as one function of catalogue, category and search
    text. *)
Definition visibleList (C : list Product) (k s : string) : list Product :=
  filter (fun p : Product =>
            ((k =? "all")%string || (category p =? k)%string)
            && includes (toLowerCase (title p)) (toLowerCase s)) C.

Definition viewConsistent (st : AppState) : Prop :=
  filteredProducts st =
  visibleList (products st) (selectedCategory st) (searchQuery st).

Definition brokenBody : FetchResult :=
  Resolved {| ok := true; json := JsonThrows (ErrorObject "Unexpected token") |}.

End Component.

(** ** The built-in lower-casing on Basic Latin and Greek text

    Text as code points, and [toLowerCase] as the language defines it on
    text made of Basic Latin characters and the Greek letters: capitals
    move to their small letters, and capital sigma becomes final sigma
    when it closes a word (a cased letter before it, none after it, case-
    ignorable characters skipped on both sides) and medial sigma
    otherwise.  Code points outside that range are passed through; for
    them nothing is claimed. *)

Fixpoint decodeUtf8 (s : string) : list N :=
  match s with
  | EmptyString => []
  | String a rest =>
      let b0 := N_of_ascii a in
      if (b0 <? 128)%N then b0 :: decodeUtf8 rest
      else if (b0 <? 224)%N then
        match rest with
        | String b rest1 =>
            ((b0 - 192) * 64 + (N_of_ascii b - 128))%N :: decodeUtf8 rest1
        | EmptyString => [b0]
        end
      else if (b0 <? 240)%N then
        match rest with
        | String b (String c rest2) =>
            ((b0 - 224) * 4096 + (N_of_ascii b - 128) * 64
             + (N_of_ascii c - 128))%N :: decodeUtf8 rest2
        | _ => [b0]
        end
      else
        match rest with
        | String b (String c (String d rest3)) =>
            ((b0 - 240) * 262144 + (N_of_ascii b - 128) * 4096
             + (N_of_ascii c - 128) * 64 + (N_of_ascii d - 128))%N
              :: decodeUtf8 rest3
        | _ => [b0]
        end
  end.

Definition encodeUtf8 (c : N) : string :=
  if (c <? 128)%N then String (ascii_of_N c) ""
  else if (c <? 2048)%N then
    String (ascii_of_N (192 + c / 64))
      (String (ascii_of_N (128 + c mod 64)) "")
  else if (c <? 65536)%N then
    String (ascii_of_N (224 + c / 4096))
      (String (ascii_of_N (128 + (c / 64) mod 64))
         (String (ascii_of_N (128 + c mod 64)) ""))
  else
    String (ascii_of_N (240 + c / 262144))
      (String (ascii_of_N (128 + (c / 4096) mod 64))
         (String (ascii_of_N (128 + (c / 64) mod 64))
            (String (ascii_of_N (128 + c mod 64)) ""))).

(** The string spelled by a list of code points. *)
Definition text (cs : list N) : string :=
  fold_right (fun c s => (encodeUtf8 c ++ s)%string) ""%string cs.

(** A-Z and the Greek capitals U+0391-U+03A9 (U+03A2 is unassigned). *)
Definition isUpper (c : N) : bool :=
  ((65 <=? c) && (c <=? 90)
   || (913 <=? c) && (c <=? 937) && negb (c =? 930))%N.

(** a-z and the Greek small letters U+03B1-U+03C9. *)
Definition isLower (c : N) : bool :=
  ((97 <=? c) && (c <=? 122) || (945 <=? c) && (c <=? 969))%N.

Definition cased (c : N) : bool := isUpper c || isLower c.

(** The case-ignorable characters of Basic Latin: ' . : ^ and `. *)
Definition caseIgnorable (c : N) : bool :=
  ((c =? 39) || (c =? 46) || (c =? 58) || (c =? 94) || (c =? 96))%N.

Fixpoint casedFollows (cs : list N) : bool :=
  match cs with
  | [] => false
  | c :: rest =>
      if cased c then true
      else if caseIgnorable c then casedFollows rest else false
  end.

(** [afterCased]: a cased letter, then only case-ignorable characters,
    stand before the current position.  U+03A3 is capital sigma, U+03C2
    final sigma, U+03C3 medial sigma. *)
Fixpoint lowerFrom (afterCased : bool) (cs : list N) : list N :=
  match cs with
  | [] => []
  | c :: rest =>
      (if (c =? 931)%N
       then if afterCased && negb (casedFollows rest) then 962%N else 963%N
       else if isUpper c then (c + 32)%N else c)
        :: lowerFrom (if cased c then true
                      else if caseIgnorable c then afterCased else false) rest
  end.

Definition lowerLatinGreek (s : string) : string :=
  text (lowerFrom false (decodeUtf8 s)).

Definition latinGreek : LowerCase :=
  {| toLowerCase := lowerLatinGreek; toLowerCase_empty := eq_refl |}.

(** Greek sample text: the capitals O, D, O, S (and A), 'street'. *)
Definition ODOS : string := text [927; 916; 927; 931]%N.

Definition ODOSA : string := text [927; 916; 927; 931; 913]%N.

Definition streetMap : Product :=
  {| id := 12; title := ODOSA; price := Z2float 3;
     description := None; category := "electronics";
     image := "map.png"; rating := noRating |}.

Definition greekView : AppState :=
  {| products := [streetMap]; filteredProducts := [];
     searchQuery := ODOS; cart := []; isCartOpen := false;
     loading := false; error := ""; selectedCategory := "all" |}.

(** A price of one tenth: the double nearest to 0.1. *)
Definition dime : Product :=
  {| id := 20; title := "Sticker"; price := fdiv (Z2float 1) (Z2float 10);
     description := None; category := "electronics";
     image := "sticker.png"; rating := noRating |}.

(** * Properties *)

(** ** Lists: filters, subsequences, prefixes *)

Section ListFacts.
  Context {A : Type}.

Lemma filter_keeps_all (f : A -> bool) (l : list A) :
    Forall (fun x => f x = true) l -> filter f l = l.
Proof.
    induction 1 as [|x l Hx _ IH]; simpl; [reflexivity|].
    rewrite Hx, IH. reflexivity.
Qed.

Lemma filter_twice (f g : A -> bool) (l : list A) :
    filter f (filter g l) = filter (fun x => g x && f x) l.
Proof.
    induction l as [|x l IH]; simpl; [reflexivity|].
    destruct (g x); simpl; [destruct (f x)|]; now rewrite IH.
Qed.

Lemma Subseq_refl (l : list A) : Subseq l l.
Proof. induction l; constructor; assumption. Qed.

Lemma Subseq_filter (f : A -> bool) (l : list A) :
    Subseq (filter f l) l.
Proof.
    induction l as [|x l IH]; simpl; [constructor|].
    destruct (f x); constructor; exact IH.
Qed.

Lemma Subseq_In (l1 l2 : list A) (x : A) :
    Subseq l1 l2 -> In x l1 -> In x l2.
Proof.
    induction 1; simpl; intros H0; auto.
    destruct H0; auto.
Qed.

Lemma Subseq_NoDup (l1 l2 : list A) :
    Subseq l1 l2 -> NoDup l2 -> NoDup l1.
Proof.
    induction 1 as [|x l1 l2 H IH|x l1 l2 H IH]; intros Hn.
    - constructor.
    - inversion Hn; subst. auto.
    - inversion Hn; subst. constructor; auto.
      intros Hin. eapply Subseq_In in Hin; eauto.
Qed.

Lemma StronglySorted_Subseq (R : A -> A -> Prop) (l1 l2 : list A) :
    Subseq l1 l2 -> StronglySorted R l2 -> StronglySorted R l1.
Proof.
    induction 1 as [|x l1 l2 H IH|x l1 l2 H IH]; intros Hs.
    - constructor.
    - inversion Hs; subst. auto.
    - inversion Hs as [|? ? Hs' Hall]; subst. constructor; [auto|].
      apply Forall_forall. intros y Hy.
      eapply Subseq_In in Hy; [|exact H].
      revert y Hy. apply Forall_forall. exact Hall.
Qed.

Lemma firstn_snoc_le (l : list A) (x : A) (m : nat) :
    (m <= List.length l)%nat -> firstn m (l ++ [x]) = firstn m l.
Proof.
    intros H. rewrite firstn_app.
    replace (m - List.length l)%nat with 0%nat by lia.
    simpl. apply app_nil_r.
Qed.

Lemma firstn_snoc_all (l : list A) (x : A) :
    firstn (S (List.length l)) (l ++ [x]) = l ++ [x].
Proof.
    replace (S (List.length l)) with (List.length (l ++ [x]))
      by (rewrite length_app; simpl; lia).
    apply firstn_all.
Qed.

End ListFacts.

Lemma Subseq_map {A B : Type} (g : A -> B) (l1 l2 : list A) :
  Subseq l1 l2 -> Subseq (map g l1) (map g l2).
Proof. induction 1; simpl; constructor; assumption. Qed.

(** ** Auxiliary facts about the cart operations *)

Lemma find_id_None (c : list CartItem) (i : Z) :
  find (fun item : CartItem => id item =? i) c = None <-> ~ hasId c i.
Proof.
  unfold hasId, ids. induction c as [|x c IH]; simpl.
  - split; [intros _ [] | reflexivity].
  - destruct (Z.eqb_spec (id x) i) as [E|E].
    + split; [discriminate | intros H; exfalso; apply H; now left].
    + rewrite IH. split.
      * intros H [H1|H1]; [now apply E | now apply H].
      * intros H H1. apply H. now right.
Qed.

Lemma find_id_Some (c : list CartItem) (i : Z) (x : CartItem) :
  find (fun item : CartItem => id item =? i) c = Some x -> hasId c i.
Proof.
  intros H. destruct (in_dec Z.eq_dec i (ids c)) as [Hin|Hout]; [exact Hin|].
  apply find_id_None in Hout. congruence.
Qed.

Lemma hasId_find (c : list CartItem) (i : Z) :
  hasId c i -> exists x, find (fun item : CartItem => id item =? i) c = Some x.
Proof.
  intros H. destruct (find _ c) as [x|] eqn:E; [now exists x|].
  apply find_id_None in E. contradiction.
Qed.

Lemma ids_app (c1 c2 : list CartItem) : ids (c1 ++ c2) = ids c1 ++ ids c2.
Proof. unfold ids. apply map_app. Qed.

(** Rewriting quantities in place leaves the identifiers where they are. *)
Lemma ids_map_requantify (f : CartItem -> Z) (i : Z) (c : list CartItem) :
  ids (map (fun item : CartItem =>
              if id item =? i then with_quantity item (f item) else item) c)
  = ids c.
Proof.
  unfold ids. rewrite map_map. apply map_ext.
  intros x. destruct (id x =? i); reflexivity.
Qed.

Lemma products_map_requantify (f : CartItem -> Z) (i : Z) (c : list CartItem) :
  map product
      (map (fun item : CartItem =>
              if id item =? i then with_quantity item (f item) else item) c)
  = map product c.
Proof.
  rewrite map_map. apply map_ext.
  intros x. destruct (id x =? i); reflexivity.
Qed.

Lemma map_requantify_absent (f : CartItem -> Z) (i : Z) (c : list CartItem) :
  ~ hasId c i ->
  map (fun item : CartItem =>
         if id item =? i then with_quantity item (f item) else item) c = c.
Proof.
  unfold hasId, ids. induction c as [|x c IH]; simpl; intros H; [reflexivity|].
  destruct (Z.eqb_spec (id x) i) as [E|E].
  - exfalso. apply H. now left.
  - f_equal. apply IH. intros H1. apply H. now right.
Qed.

Lemma positive_filter_id (c : list CartItem) :
  positiveQuantities c ->
  filter (fun item : CartItem => quantity item >? 0) c = c.
Proof.
  intros H. apply filter_keeps_all.
  eapply Forall_impl; [|exact H]. simpl. intros x Hx.
  apply Z.gtb_lt. exact Hx.
Qed.

Lemma ids_filter_Subseq (f : CartItem -> bool) (c : list CartItem) :
  Subseq (ids (filter f c)) (ids c).
Proof. unfold ids. apply Subseq_map, Subseq_filter. Qed.

(** *** Each operation keeps the two invariants *)

Lemma addToCart_ids_present (c : list CartItem) (p : Product) :
  hasId c (id p) -> ids (addToCart c p) = ids c.
Proof.
  intros H. apply hasId_find in H as [x Hx]. unfold addToCart. rewrite Hx.
  apply (ids_map_requantify (fun item => quantity item + 1)).
Qed.

Lemma addToCart_absent (c : list CartItem) (p : Product) :
  ~ hasId c (id p) ->
  addToCart c p = c ++ [ {| product := p; quantity := 1 |} ].
Proof.
  intros H. apply find_id_None in H. unfold addToCart. rewrite H. reflexivity.
Qed.

Lemma addToCart_uniqueIds (c : list CartItem) (p : Product) :
  uniqueIds c -> uniqueIds (addToCart c p).
Proof.
  unfold uniqueIds. intros H.
  destruct (in_dec Z.eq_dec (id p) (ids c)) as [Hin|Hout].
  - rewrite addToCart_ids_present; assumption.
  - rewrite addToCart_absent, ids_app by assumption. simpl.
    apply NoDup_app; [exact H | constructor; [intros [] | constructor] |].
    intros a Ha [Hb|[]]. subst a. contradiction.
Qed.

Lemma addToCart_positive (c : list CartItem) (p : Product) :
  positiveQuantities c -> positiveQuantities (addToCart c p).
Proof.
  unfold positiveQuantities, addToCart. intros H.
  destruct (find _ c).
  - apply Forall_map. eapply Forall_impl; [|exact H]. simpl.
    intros x Hx. destruct (id x =? id p); simpl; lia.
  - apply Forall_app. split; [exact H|]. constructor; [simpl; lia | constructor].
Qed.

Lemma updateQuantity_uniqueIds (c : list CartItem) (i delta : Z) :
  uniqueIds c -> uniqueIds (updateQuantity c i delta).
Proof.
  unfold uniqueIds, updateQuantity. intros H.
  eapply Subseq_NoDup; [apply ids_filter_Subseq|].
  rewrite (ids_map_requantify (fun item => Z.max 0 (quantity item + delta))).
  exact H.
Qed.

Lemma updateQuantity_positive (c : list CartItem) (i delta : Z) :
  positiveQuantities (updateQuantity c i delta).
Proof.
  unfold positiveQuantities, updateQuantity. apply Forall_forall.
  intros x Hx. apply filter_In in Hx as [_ Hx]. apply Z.gtb_lt. exact Hx.
Qed.

Lemma removeFromCart_uniqueIds (c : list CartItem) (i : Z) :
  uniqueIds c -> uniqueIds (removeFromCart c i).
Proof.
  unfold uniqueIds, removeFromCart. intros H.
  eapply Subseq_NoDup; [apply ids_filter_Subseq | exact H].
Qed.

Lemma removeFromCart_positive (c : list CartItem) (i : Z) :
  positiveQuantities c -> positiveQuantities (removeFromCart c i).
Proof.
  unfold positiveQuantities, removeFromCart. intros H. apply Forall_forall.
  intros x Hx. apply filter_In in Hx as [Hx _].
  revert x Hx. apply Forall_forall. exact H.
Qed.

Create HintDb cart.
#[local] Hint Resolve addToCart_uniqueIds addToCart_positive
  updateQuantity_uniqueIds updateQuantity_positive
  removeFromCart_uniqueIds removeFromCart_positive : cart.

Lemma applyOp_invariant (c : list CartItem) (op : CartOp) :
  uniqueIds c /\ positiveQuantities c ->
  uniqueIds (applyOp c op) /\ positiveQuantities (applyOp c op).
Proof.
  intros [Hu Hp]. destruct op as [p|i delta|i]; simpl; split; auto with cart.
Qed.

Lemma runOps_snoc (ops : list CartOp) (op : CartOp) :
  runOps (ops ++ [op]) = applyOp (runOps ops) op.
Proof. unfold runOps. rewrite fold_left_app. reflexivity. Qed.

(** ** Main results *)

(** C2. Every cart reached from the empty cart by a sequence of
    [addToCart], [updateQuantity] and [removeFromCart] calls holds at most
    one entry per product identifier, and every quantity in it is a
    positive integer. *)
Theorem reachable_cart_invariants (ops : list CartOp) :
  NoDup (map (fun item : CartItem => id item) (runOps ops)) /\
  Forall (fun item : CartItem => 0 < quantity item) (runOps ops).
Proof.
  change (uniqueIds (runOps ops) /\ positiveQuantities (runOps ops)).
  induction ops as [|op ops IH] using rev_ind.
  - split; constructor.
  - rewrite runOps_snoc. apply applyOp_invariant. exact IH.
Qed.

Lemma count_ids_absent (c : list CartItem) (i : Z) :
  ~ hasId c i -> count_occ Z.eq_dec (ids c) i = 0%nat.
Proof. intros H. apply count_occ_not_In. exact H. Qed.

(** C3. [addToCart p] adds one to the quantity of the entry carrying
    [p]'s identifier when there is one, and otherwise appends a new entry
    of quantity 1; it never makes a second entry for an identifier.  Two
    calls in a row on a cart without [p] give one entry of quantity 2. *)
Theorem addToCart_upsert (c : list CartItem) (p : Product) :
  (hasId c (id p) ->
     map product (addToCart c p) = map product c /\
     map quantity (addToCart c p) =
       map (fun item : CartItem =>
              if id item =? id p then quantity item + 1 else quantity item) c) /\
  (~ hasId c (id p) ->
     addToCart c p = c ++ [ {| product := p; quantity := 1 |} ]) /\
  (forall j : Z,
     (count_occ Z.eq_dec (ids (addToCart c p)) j
      <= Nat.max 1 (count_occ Z.eq_dec (ids c) j))%nat) /\
  (uniqueIds c -> uniqueIds (addToCart c p)) /\
  (~ hasId c (id p) ->
     addToCart (addToCart c p) p = c ++ [ {| product := p; quantity := 2 |} ]).
Proof.
  split; [|split; [|split; [|split]]].
  - intros H. apply hasId_find in H as [x Hx]. unfold addToCart. rewrite Hx.
    split.
    + apply (products_map_requantify (fun item => quantity item + 1)).
    + rewrite map_map. apply map_ext. intros a.
      destruct (id a =? id p); reflexivity.
  - apply addToCart_absent.
  - intros j. destruct (in_dec Z.eq_dec (id p) (ids c)) as [Hin|Hout].
    + rewrite addToCart_ids_present by exact Hin. lia.
    + rewrite addToCart_absent, ids_app, count_occ_app by exact Hout. simpl.
      destruct (Z.eq_dec (id p) j) as [E|E].
      * subst j. rewrite count_ids_absent by exact Hout. simpl. lia.
      * destruct (count_occ Z.eq_dec (ids c) j); lia.
  - apply addToCart_uniqueIds.
  - intros H. rewrite (addToCart_absent c p H).
    unfold addToCart.
    assert (Hf : exists x,
               find (fun item : CartItem => id item =? id p)
                    (c ++ [ {| product := p; quantity := 1 |} ]) = Some x).
    { apply hasId_find. unfold hasId. rewrite ids_app.
      apply in_or_app. right. simpl. now left. }
    destruct Hf as [x Hx]. rewrite Hx. rewrite map_app.
    rewrite (map_requantify_absent (fun item => quantity item + 1) (id p) c H).
    simpl. rewrite Z.eqb_refl. reflexivity.
Qed.

Lemma addToCart_upsert_witness :
  map quantity (addToCart [entry ring 4; entry shirt 2] shirt) = [4; 3] /\
  addToCart [entry ring 4] shirt = [entry ring 4; entry shirt 1] /\
  addToCart (addToCart [entry ring 4] shirt) shirt
    = [entry ring 4; entry shirt 2].
Proof.
  split; [|split].
  - destruct (addToCart_upsert [entry ring 4; entry shirt 2] shirt)
      as (H & _).
    destruct H as [_ H]; [vm_compute; right; left; reflexivity|].
    rewrite H. reflexivity.
  - destruct (addToCart_upsert [entry ring 4] shirt) as (_ & H & _).
    apply H. vm_compute. intros [E|[]]. discriminate E.
  - destruct (addToCart_upsert [entry ring 4] shirt) as (_ & _ & _ & _ & H).
    apply H. vm_compute. intros [E|[]]. discriminate E.
Defined.

Lemma uniqueIds_split (l1 l2 : list CartItem) (it : CartItem) :
  uniqueIds (l1 ++ it :: l2) -> ~ hasId l1 (id it) /\ ~ hasId l2 (id it).
Proof.
  unfold uniqueIds, hasId. rewrite ids_app. simpl. intros H.
  apply NoDup_remove_2 in H. split; intros Hin; apply H, in_or_app; auto.
Qed.

Lemma positive_app (l1 l2 : list CartItem) :
  positiveQuantities (l1 ++ l2) ->
  positiveQuantities l1 /\ positiveQuantities l2.
Proof. unfold positiveQuantities. apply Forall_app. Qed.

(** The shape of [updateQuantity] on a cart whose entry for [i] is
    singled out. *)
Lemma updateQuantity_split (l1 l2 : list CartItem) (it : CartItem) (delta : Z) :
  ~ hasId l1 (id it) -> ~ hasId l2 (id it) ->
  positiveQuantities l1 -> positiveQuantities l2 ->
  updateQuantity (l1 ++ it :: l2) (id it) delta =
    l1 ++ (if Z.max 0 (quantity it + delta) <=? 0 then []
           else [with_quantity it (Z.max 0 (quantity it + delta))]) ++ l2.
Proof.
  intros A1 A2 P1 P2. unfold updateQuantity.
  rewrite map_app. simpl. rewrite Z.eqb_refl.
  rewrite (map_requantify_absent
             (fun item => Z.max 0 (quantity item + delta)) (id it) l1 A1).
  rewrite (map_requantify_absent
             (fun item => Z.max 0 (quantity item + delta)) (id it) l2 A2).
  rewrite filter_app. simpl.
  rewrite (positive_filter_id l1 P1), (positive_filter_id l2 P2).
  f_equal.
  destruct (Z.leb_spec (Z.max 0 (quantity it + delta)) 0) as [L|L].
  - replace (Z.max 0 (quantity it + delta) >? 0) with false; [reflexivity|].
    symmetry. rewrite Z.gtb_ltb. apply Z.ltb_ge. exact L.
  - replace (Z.max 0 (quantity it + delta) >? 0) with true; [reflexivity|].
    symmetry. apply Z.gtb_lt. exact L.
Qed.

Lemma updateQuantity_absent (c : list CartItem) (i delta : Z) :
  positiveQuantities c -> ~ hasId c i -> updateQuantity c i delta = c.
Proof.
  intros P A. unfold updateQuantity.
  rewrite (map_requantify_absent
             (fun item => Z.max 0 (quantity item + delta)) i c A).
  apply positive_filter_id. exact P.
Qed.

(** C4. On a cart that satisfies the two invariants, [updateQuantity i
    delta] replaces the quantity [q] of the entry for [i] by
    [max 0 (q + delta)] and drops the entry in the same step when that is
    not positive, every other entry staying as and where it is; no entry
    of quantity 0 or less is left; and with no entry for [i] the cart is
    returned unchanged. *)
Theorem updateQuantity_spec (c : list CartItem) (i delta : Z) :
  uniqueIds c -> positiveQuantities c ->
  (forall (l1 l2 : list CartItem) (it : CartItem),
     c = l1 ++ it :: l2 -> id it = i ->
     updateQuantity c i delta =
       l1 ++ (if Z.max 0 (quantity it + delta) <=? 0 then []
              else [with_quantity it (Z.max 0 (quantity it + delta))]) ++ l2) /\
  Forall (fun item : CartItem => 0 < quantity item) (updateQuantity c i delta) /\
  uniqueIds (updateQuantity c i delta) /\
  (~ hasId c i -> updateQuantity c i delta = c).
Proof.
  intros U P. split; [|split; [|split]].
  - intros l1 l2 it -> <-.
    destruct (uniqueIds_split _ _ _ U) as [A1 A2].
    destruct (positive_app _ _ P) as [P1 P2].
    apply updateQuantity_split; auto.
    inversion P2; assumption.
  - apply updateQuantity_positive.
  - now apply updateQuantity_uniqueIds.
  - now apply updateQuantity_absent.
Qed.

Ltac no_such_id :=
  unfold hasId, ids; simpl; intuition discriminate.

Ltac distinct_ids :=
  unfold uniqueIds, ids; simpl;
  repeat (constructor; [simpl; intuition discriminate|]); constructor.

Ltac all_positive :=
  unfold positiveQuantities; repeat (constructor; [reflexivity|]); constructor.

Lemma updateQuantity_spec_witness :
  updateQuantity [entry ring 4; entry shirt 2; entry drive 1] 1 (-2)
    = [entry ring 4; entry drive 1] /\
  updateQuantity [entry ring 4; entry shirt 2; entry drive 1] 1 (-1)
    = [entry ring 4; entry shirt 1; entry drive 1] /\
  updateQuantity [entry ring 4; entry shirt 2; entry drive 1] 7 (-1)
    = [entry ring 4; entry shirt 2; entry drive 1].
Proof.
  split; [|split].
  - destruct (updateQuantity_spec
                [entry ring 4; entry shirt 2; entry drive 1] 1 (-2))
      as (H & _); [distinct_ids | all_positive |].
    exact (H [entry ring 4] [entry drive 1] (entry shirt 2)
             eq_refl eq_refl).
  - destruct (updateQuantity_spec
                [entry ring 4; entry shirt 2; entry drive 1] 1 (-1))
      as (H & _); [distinct_ids | all_positive |].
    exact (H [entry ring 4] [entry drive 1] (entry shirt 2)
             eq_refl eq_refl).
  - destruct (updateQuantity_spec
                [entry ring 4; entry shirt 2; entry drive 1] 7 (-1))
      as (_ & _ & _ & H); [distinct_ids | all_positive |].
    apply H. no_such_id.
Defined.

(** C5. On a cart whose quantities are all positive, [addToCart p]
    followed by [updateQuantity (id p) (-1)] gives back the cart as it was
    before the add; when [p] was not in the cart, the entry just appended
    is dropped again. *)
Theorem add_then_decrement_roundtrip (c : list CartItem) (p : Product) :
  positiveQuantities c ->
  updateQuantity (addToCart c p) (id p) (-1) = c.
Proof.
  intros P. destruct (in_dec Z.eq_dec (id p) (ids c)) as [Hin|Hout].
  - apply hasId_find in Hin as [x Hx]. unfold addToCart. rewrite Hx.
    unfold updateQuantity. rewrite map_map.
    match goal with
    | |- filter _ (map ?h c) = c => assert (E : map h c = c)
    end.
    { clear Hx. induction P as [|a l Ha _ IH]; simpl; [reflexivity|].
      rewrite IH. f_equal.
      destruct (id a =? id p) eqn:Ea; simpl; rewrite Ea; [|reflexivity].
      replace (Z.max 0 (quantity a + 1 + -1)) with (quantity a) by lia.
      destruct a; reflexivity. }
    rewrite E. apply positive_filter_id. exact P.
  - rewrite (addToCart_absent c p Hout).
    change (id p) with (id (product {| product := p; quantity := 1 |})).
    replace (c ++ [ {| product := p; quantity := 1 |} ])
      with (c ++ {| product := p; quantity := 1 |} :: []) by reflexivity.
    rewrite updateQuantity_split; simpl; try assumption.
    + apply app_nil_r.
    + intros [].
    + constructor.
Qed.

Lemma add_then_decrement_roundtrip_witness :
  updateQuantity (addToCart [entry ring 4; entry shirt 2] drive) 9 (-1)
    = [entry ring 4; entry shirt 2] /\
  updateQuantity (addToCart [entry ring 4; entry shirt 2] shirt) 1 (-1)
    = [entry ring 4; entry shirt 2].
Proof.
  split.
  - apply (add_then_decrement_roundtrip [entry ring 4; entry shirt 2] drive).
    all_positive.
  - apply (add_then_decrement_roundtrip [entry ring 4; entry shirt 2] shirt).
    all_positive.
Defined.

Lemma removeFromCart_absent (c : list CartItem) (i : Z) :
  ~ hasId c i -> removeFromCart c i = c.
Proof.
  unfold removeFromCart, hasId, ids. intros H. apply filter_keeps_all.
  apply Forall_forall. intros x Hx.
  destruct (Z.eqb_spec (id x) i) as [E|E]; [|reflexivity].
  exfalso. apply H. subst i. apply (in_map (fun item : CartItem => id item)).
  exact Hx.
Qed.

Lemma removeFromCart_split (l1 l2 : list CartItem) (it : CartItem) :
  ~ hasId l1 (id it) -> ~ hasId l2 (id it) ->
  removeFromCart (l1 ++ it :: l2) (id it) = l1 ++ l2.
Proof.
  intros A1 A2. unfold removeFromCart. rewrite filter_app. simpl.
  rewrite Z.eqb_refl. simpl.
  fold (removeFromCart l1 (id it)). fold (removeFromCart l2 (id it)).
  rewrite !removeFromCart_absent by assumption. reflexivity.
Qed.

Lemma removeFromCart_In (c : list CartItem) (i : Z) (it : CartItem) :
  In it (removeFromCart c i) <-> In it c /\ id it <> i.
Proof.
  unfold removeFromCart. rewrite filter_In.
  destruct (Z.eqb_spec (id it) i); simpl; intuition congruence.
Qed.

(** C8. [removeFromCart i] deletes the entry for [i] whatever its
    quantity, leaves every other entry as and where it is, and returns the
    cart unchanged when it has no entry for [i]. *)
Theorem removeFromCart_spec (c : list CartItem) (i : Z) :
  ~ hasId (removeFromCart c i) i /\
  (forall it : CartItem,
     In it (removeFromCart c i) <-> In it c /\ id it <> i) /\
  Subseq (removeFromCart c i) c /\
  (forall (l1 l2 : list CartItem) (it : CartItem),
     c = l1 ++ it :: l2 -> id it = i -> ~ hasId l1 i -> ~ hasId l2 i ->
     removeFromCart c i = l1 ++ l2) /\
  (~ hasId c i -> removeFromCart c i = c).
Proof.
  split; [|split; [|split; [|split]]].
  - unfold hasId, ids. intros H. apply in_map_iff in H as (x & E & Hx).
    apply removeFromCart_In in Hx as [_ Hx]. contradiction.
  - intros it. apply removeFromCart_In.
  - apply Subseq_filter.
  - intros l1 l2 it -> <- A1 A2. now apply removeFromCart_split.
  - apply removeFromCart_absent.
Qed.

Lemma removeFromCart_spec_witness :
  removeFromCart [entry ring 4; entry shirt 2; entry drive 1] 1
    = [entry ring 4; entry drive 1] /\
  removeFromCart [entry ring 4; entry drive 1] 1
    = [entry ring 4; entry drive 1].
Proof.
  split.
  - destruct (removeFromCart_spec
                [entry ring 4; entry shirt 2; entry drive 1] 1)
      as (_ & _ & _ & H & _).
    apply (H [entry ring 4] [entry drive 1] (entry shirt 2));
      try reflexivity; no_such_id.
  - destruct (removeFromCart_spec [entry ring 4; entry drive 1] 1)
      as (_ & _ & _ & _ & H).
    apply H. no_such_id.
Defined.

(** C9. On a cart that satisfies the two invariants and holds an entry
    for [i] with quantity [q], [updateQuantity i (-q)] and
    [removeFromCart i] return the same cart. *)
Theorem updateQuantity_to_zero_is_remove
    (c : list CartItem) (i q : Z) (it : CartItem) :
  uniqueIds c -> positiveQuantities c ->
  In it c -> id it = i -> quantity it = q ->
  updateQuantity c i (- q) = removeFromCart c i.
Proof.
  intros U P Hin <- <-.
  apply in_split in Hin as (l1 & l2 & ->).
  destruct (uniqueIds_split _ _ _ U) as [A1 A2].
  destruct (positive_app _ _ P) as [P1 P2].
  rewrite updateQuantity_split, removeFromCart_split; auto.
  - replace (quantity it + - quantity it) with 0 by lia. reflexivity.
  - inversion P2; assumption.
Qed.

Lemma updateQuantity_to_zero_is_remove_witness :
  updateQuantity [entry ring 4; entry shirt 2; entry drive 1] 1 (- 2)
    = removeFromCart [entry ring 4; entry shirt 2; entry drive 1] 1.
Proof.
  apply (updateQuantity_to_zero_is_remove
           [entry ring 4; entry shirt 2; entry drive 1] 1 2 (entry shirt 2)).
  - distinct_ids.
  - all_positive.
  - simpl. right. left. reflexivity.
  - reflexivity.
  - reflexivity.
Defined.

(** *** The totals as folds *)

Lemma totalItems_from (c : list CartItem) (acc : Z) :
  fold_left (fun (sum : Z) (item : CartItem) => sum + quantity item) c acc
  = acc + sumQuantities c.
Proof.
  revert acc. induction c as [|x c IH]; intros acc; simpl.
  - lia.
  - rewrite IH. lia.
Qed.

(** C6, as the code has it.  [totalItems] is the sum of the quantities.
    [totalCost] is the running total in double arithmetic: zero for the
    empty cart, and each further entry, in the order of the cart, adds
    its rounded product of price and quantity with a rounded addition.
    Both are functions of the cart alone.  For a cart of two entries
    priced 10 and 5 with quantities 2 and 1 they are 25 and 3. *)
Theorem totals_are_sums :
  (forall c : list CartItem, totalItems c = sumQuantities c) /\
  totalCost [] = Z2float 0 /\
  (forall (c : list CartItem) (item : CartItem),
     totalCost (c ++ [item]) =
       fadd (totalCost c)
         (fmul (price item) (Z2float (quantity item)))) /\
  (forall a b : Product,
     price a = Z2float 10 -> price b = Z2float 5 ->
     totalCost [ {| product := a; quantity := 2 |};
                 {| product := b; quantity := 1 |} ] = Z2float 25 /\
     totalItems [ {| product := a; quantity := 2 |};
                  {| product := b; quantity := 1 |} ] = 3).
Proof.
  split; [|split; [|split]].
  - intros c. unfold totalItems. rewrite totalItems_from. lia.
  - reflexivity.
  - intros c item. unfold totalCost. rewrite fold_left_app. reflexivity.
  - intros a b Ha Hb. split; [|reflexivity].
    unfold totalCost. simpl. rewrite Ha, Hb. vm_compute. reflexivity.
Qed.

Lemma totals_are_sums_witness :
  totalCost [entry shirt 2; entry ring 1] = Z2float 25 /\
  totalItems [entry shirt 2; entry ring 1] = 3.
Proof.
  destruct totals_are_sums as (_ & _ & _ & H).
  apply (H shirt ring); reflexivity.
Defined.

(** C6, as it is worded, fails: three items at the double nearest 0.1
    cost 0.30000000000000004 in the component, which is not the sum of
    price times quantity over the cart. *)
Lemma totals_are_sums_counterexample :
  exists computed exact : Q,
    exactValue (totalCost [entry dime 3]) = Some computed /\
    exactSum [entry dime 3] = Some exact /\
    ~ (computed == exact)%Q.
Proof.
  eexists. eexists. split; [vm_compute; reflexivity|].
  split; [vm_compute; reflexivity|].
  intros H. vm_compute in H. discriminate H.
Qed.

Example three_dimes :
  totalCost [entry dime 3]
    = fmul (fdiv (Z2float 1) (Z2float 10)) (Z2float 3) /\
  totalCost [entry dime 3] <> fdiv (Z2float 3) (Z2float 10).
Proof.
  split; [vm_compute; reflexivity|].
  intros H. vm_compute in H. discriminate H.
Qed.

(** *** Text search *)

Lemma prefix_iff (p s : string) :
  prefix p s = true <-> exists rest : string, s = (p ++ rest)%string.
Proof.
  revert s. induction p as [|a p IH]; intros s.
  - split; [intros _; now exists s | intros _; destruct s; reflexivity].
  - destruct s as [|b s]; simpl.
    + split; [discriminate | intros [rest H]; discriminate H].
    + destruct (ascii_dec a b) as [E|E].
      * subst b. rewrite IH. split; intros [rest H]; exists rest.
        -- now rewrite H.
        -- now inversion H.
      * split; [discriminate | intros [rest H]; inversion H; congruence].
Qed.

Lemma includes_unfold (s pat : string) :
  includes s pat =
  if prefix pat s then true
  else match s with
       | EmptyString => false
       | String _ rest => includes rest pat
       end.
Proof. destruct s; reflexivity. Qed.

Lemma includes_iff (s pat : string) :
  includes s pat = true <->
  exists before after : string, s = (before ++ pat ++ after)%string.
Proof.
  induction s as [|a s IH]; rewrite includes_unfold.
  - destruct (prefix pat "") eqn:E.
    + apply prefix_iff in E as [rest E]. split; [intros _|reflexivity].
      exists ""%string, rest. exact E.
    + split; [discriminate|]. intros ([|b before] & after & H).
      * assert (P : prefix pat "" = true) by (apply prefix_iff; now exists after).
        congruence.
      * discriminate H.
  - destruct (prefix pat (String a s)) eqn:E.
    + apply prefix_iff in E as [rest E]. split; [intros _|reflexivity].
      exists ""%string, rest. exact E.
    + rewrite IH. split.
      * intros (before & after & H). exists (String a before), after.
        simpl. now rewrite H.
      * intros ([|b before] & after & H).
        -- assert (P : prefix pat (String a s) = true)
             by (apply prefix_iff; now exists after).
           congruence.
        -- simpl in H. inversion H. now exists before, after.
Qed.

Section ViewProperties.
Context {builtin : LowerCase}.

(** The test written in the search effect decides [lowerContains]. *)
Lemma includes_lower_iff (t s : string) :
  includes (toLowerCase t) (toLowerCase s) = true <-> lowerContains t s.
Proof. apply includes_iff. Qed.

Lemma empty_search_matches (t : string) : lowerContains t "".
Proof.
  unfold lowerContains. rewrite toLowerCase_empty.
  now exists ""%string, (toLowerCase t).
Qed.

(** *** The effects *)

Lemma searchEffect_filtered (st : AppState) :
  filteredProducts (searchEffect st) =
  filter (fun p : Product =>
            ((selectedCategory st =? "all")%string
             || (category p =? selectedCategory st)%string)
            && includes (toLowerCase (title p)) (toLowerCase (searchQuery st)))
         (products st).
Proof.
  unfold searchEffect. simpl.
  destruct (selectedCategory st =? "all")%string; simpl.
  - reflexivity.
  - apply filter_twice.
Qed.

Lemma categoryEffect_inputs (st : AppState) :
  products (categoryEffect st) = products st /\
  selectedCategory (categoryEffect st) = selectedCategory st /\
  searchQuery (categoryEffect st) = searchQuery st.
Proof.
  unfold categoryEffect.
  destruct (selectedCategory st =? "all")%string; simpl; auto.
Qed.

Lemma visible_test_iff (k s : string) (p : Product) :
  ((k =? "all")%string || (category p =? k)%string)
  && includes (toLowerCase (title p)) (toLowerCase s) = true
  <-> visibleSpec k s p.
Proof.
  unfold visibleSpec.
  rewrite andb_true_iff, orb_true_iff, !String.eqb_eq, includes_lower_iff.
  reflexivity.
Qed.

(** C1, as the code has it.  Whenever the catalogue, the category or the
    search text has changed, the visible list left by the effects is the
    catalogue [C] filtered by a test that holds exactly of the products
    [p] with ([k] = 'all' or [category p] = [k]) and whose lower-cased
    title contains the lower-cased search text [s]; so it is a
    subsequence of [C], nothing being reordered, and the empty search
    text matches every title. *)
Theorem visible_products_spec
    (C : list Product) (k s : string) (st : AppState) (ch : Changed) :
  products st = C -> selectedCategory st = k -> searchQuery st = s ->
  anyChanged ch = true ->
  (exists keep : Product -> bool,
     (forall p : Product, keep p = true <-> visibleSpec k s p) /\
     filteredProducts (runEffects ch st) = filter keep C) /\
  (forall p : Product,
     In p (filteredProducts (runEffects ch st)) <->
     In p C /\ visibleSpec k s p) /\
  Subseq (filteredProducts (runEffects ch st)) C /\
  (forall t : string, lowerContains t "").
Proof.
  intros HC Hk Hs Hch.
  assert (E : filteredProducts (runEffects ch st) =
              filter (fun p : Product =>
                        ((k =? "all")%string || (category p =? k)%string)
                        && includes (toLowerCase (title p)) (toLowerCase s))
                     C).
  { unfold runEffects.
    replace (searchChanged ch || productsChanged ch || categoryChanged ch)
      with true
      by (unfold anyChanged in Hch; rewrite <- Hch;
          destruct (productsChanged ch), (categoryChanged ch),
            (searchChanged ch); reflexivity).
    rewrite searchEffect_filtered.
    destruct (categoryChanged ch || productsChanged ch).
    - destruct (categoryEffect_inputs st) as (-> & -> & ->).
      now rewrite HC, Hk, Hs.
    - now rewrite HC, Hk, Hs. }
  split; [|split; [|split]].
  - eexists. split; [|exact E]. intros p. apply visible_test_iff.
  - intros p. rewrite E, filter_In, visible_test_iff. reflexivity.
  - rewrite E. apply Subseq_filter.
  - apply empty_search_matches.
Qed.

End ViewProperties.

(** *** The catalogue fetch *)

Lemma fetchProducts_consumes_one (r : FetchResult) (net : Network) (st : AppState) :
  snd (fetchProducts (r :: net) st) = net.
Proof. reflexivity. Qed.

Lemma fetchProducts_ends_loading (r : FetchResult) (net : Network) (st : AppState) :
  loading (fst (fetchProducts (r :: net) st)) = false.
Proof. reflexivity. Qed.

Lemma tryBlock_failed (r : FetchResult) (st : AppState) :
  requestFailed r ->
  exists err : Thrown,
    tryBlock r st = inr err /\
    error (catchBlock err st) = failureText r /\
    products (catchBlock err st) = products st /\
    filteredProducts (catchBlock err st) = filteredProducts st.
Proof.
  destruct r as [response|e]; simpl; intros H.
  - rewrite H. simpl. eexists. split; [reflexivity|]. simpl. auto.
  - exists e. split; [reflexivity|]. destruct e; simpl; auto.
Qed.

(** C7. One settled request of the loader.  When it resolves with a
    success status and a decodable body, the catalogue (and the visible
    list) become the decoded list, the error is cleared and loading ends.
    When the request is rejected or resolves with a non-success status,
    the error becomes the text describing the failure (for a non-success
    status, 'Failed to fetch products'), the catalogue is not written (so
    it is still empty after the fetch made on mount) and loading ends.
    Either way exactly one answer of the network is consumed: the loader
    issues no second request. *)
Theorem fetchProducts_outcomes (r : FetchResult) (net : Network) (st : AppState) :
  (forall data : list Product,
     r = Resolved {| ok := true; json := Decoded data |} ->
     products (fst (fetchProducts (r :: net) st)) = data /\
     filteredProducts (fst (fetchProducts (r :: net) st)) = data /\
     error (fst (fetchProducts (r :: net) st)) = ""%string /\
     loading (fst (fetchProducts (r :: net) st)) = false /\
     snd (fetchProducts (r :: net) st) = net) /\
  (requestFailed r ->
     error (fst (fetchProducts (r :: net) st)) = failureText r /\
     products (fst (fetchProducts (r :: net) st)) = products st /\
     filteredProducts (fst (fetchProducts (r :: net) st)) = filteredProducts st /\
     loading (fst (fetchProducts (r :: net) st)) = false /\
     snd (fetchProducts (r :: net) st) = net) /\
  (requestFailed r ->
     error (fst (mount (r :: net))) = failureText r /\
     products (fst (mount (r :: net))) = [] /\
     filteredProducts (fst (mount (r :: net))) = [] /\
     loading (fst (mount (r :: net))) = false /\
     snd (mount (r :: net)) = net) /\
  (forall response : Response,
     r = Resolved response -> ok response = false ->
     error (fst (fetchProducts (r :: net) st))
       = "Failed to fetch products"%string).
Proof.
  assert (F : forall st0 : AppState,
            requestFailed r ->
            error (fst (fetchProducts (r :: net) st0)) = failureText r /\
            products (fst (fetchProducts (r :: net) st0)) = products st0 /\
            filteredProducts (fst (fetchProducts (r :: net) st0))
              = filteredProducts st0 /\
            loading (fst (fetchProducts (r :: net) st0)) = false /\
            snd (fetchProducts (r :: net) st0) = net).
  { intros st0 H. set (S := setError "" (setLoading true st0)).
    destruct (tryBlock_failed r S H) as (err & Ht & He & Hp & Hf).
    unfold fetchProducts. cbv zeta. fold S. rewrite Ht.
    change (error (catchBlock err S) = failureText r /\
            products (catchBlock err S) = products st0 /\
            filteredProducts (catchBlock err S) = filteredProducts st0 /\
            false = false /\ net = net).
    rewrite He. repeat split. }
  split; [|split; [|split]].
  - intros data ->. simpl. auto.
  - apply F.
  - intros H. unfold mount. destruct (F initialState H) as (A & B & C & D & E).
    rewrite A, B, C, D, E. simpl. auto.
  - intros response -> Hok.
    destruct (F st) as (A & _); [exact Hok|]. rewrite A. reflexivity.
Qed.

Lemma fetchProducts_outcomes_witness :
  error (fst (mount [notFound])) = "Failed to fetch products"%string /\
  products (fst (mount [notFound])) = [] /\
  loading (fst (mount [notFound])) = false /\
  snd (mount [notFound]) = [].
Proof.
  destruct (fetchProducts_outcomes notFound [] initialState)
    as (_ & _ & H & _).
  destruct H as (A & B & _ & D & E); [reflexivity|].
  rewrite A, B, D, E. repeat split.
Defined.

Example fetch_success :
  fetchProducts [Resolved {| ok := true; json := Decoded [shirt; ring] |}]
                (setError "stale" initialState)
  = ({| products := [shirt; ring]; filteredProducts := [shirt; ring];
        searchQuery := ""; cart := []; isCartOpen := false;
        loading := false; error := ""; selectedCategory := "all" |}, []).
Proof. reflexivity. Qed.

Example fetch_pending :
  fetchProducts [] initialState = (initialState, []).
Proof. reflexivity. Qed.

(** *** Order of the entries *)

Lemma runStamped_snoc (ops : list CartOp) (op : CartOp) :
  runStamped (ops ++ [op]) = stampedStep (runStamped ops) op.
Proof. unfold runStamped. rewrite fold_left_app. reflexivity. Qed.

(** The stamps are bookkeeping only: the cart next to them is the cart of
    the plain run, and the clock counts the calls. *)
Lemma runStamped_cart (ops : list CartOp) :
  s_cart (runStamped ops) = runOps ops.
Proof.
  induction ops as [|op ops IH] using rev_ind; [reflexivity|].
  rewrite runStamped_snoc, runOps_snoc. simpl. now rewrite IH.
Qed.

Lemma runStamped_clock (ops : list CartOp) :
  s_clock (runStamped ops) = List.length ops.
Proof.
  induction ops as [|op ops IH] using rev_ind; [reflexivity|].
  rewrite runStamped_snoc, length_app. simpl. rewrite IH. lia.
Qed.

Lemma insertedAt_bound (ops : list CartOp) (i : Z) (k : nat) :
  insertedAt ops i k -> (k < List.length ops)%nat.
Proof.
  intros ((p & Hn & _) & _). apply nth_error_Some. congruence.
Qed.

Lemma insertedAt_snoc_keep (ops : list CartOp) (op : CartOp) (i : Z) (k : nat) :
  insertedAt ops i k -> hasId (runOps (ops ++ [op])) i ->
  insertedAt (ops ++ [op]) i k.
Proof.
  intros H Hnow. pose proof (insertedAt_bound _ _ _ H) as Hk.
  destruct H as ((p & Hn & Hp) & Hbefore & Hsince). repeat split.
  - exists p. split; [|exact Hp]. rewrite nth_error_app1; assumption.
  - rewrite firstn_snoc_le by lia. exact Hbefore.
  - intros m Hm. rewrite length_app in Hm. simpl in Hm.
    destruct (Nat.eq_dec m (S (List.length ops))) as [->|Hne].
    + rewrite firstn_snoc_all. exact Hnow.
    + rewrite firstn_snoc_le by lia. apply Hsince. lia.
Qed.

Lemma insertedAt_snoc_new (ops : list CartOp) (p : Product) :
  ~ hasId (runOps ops) (id p) ->
  insertedAt (ops ++ [AddToCart p]) (id p) (List.length ops).
Proof.
  intros H. repeat split.
  - exists p. split; [|reflexivity].
    rewrite nth_error_app2 by lia. rewrite Nat.sub_diag. reflexivity.
  - rewrite firstn_snoc_le, firstn_all by lia. exact H.
  - intros m Hm. rewrite length_app in Hm. simpl in Hm.
    replace m with (S (List.length ops)) by lia.
    rewrite firstn_snoc_all, runOps_snoc. simpl.
    rewrite addToCart_absent by exact H.
    unfold hasId. rewrite ids_app. apply in_or_app. right. simpl. now left.
Qed.

(** At most one call can be the insertion of the entry now in the cart. *)
Lemma insertedAt_unique (ops : list CartOp) (i : Z) (k1 k2 : nat) :
  insertedAt ops i k1 -> insertedAt ops i k2 -> k1 = k2.
Proof.
  intros H1 H2.
  pose proof (insertedAt_bound _ _ _ H1) as B1.
  pose proof (insertedAt_bound _ _ _ H2) as B2.
  destruct H1 as (_ & N1 & S1). destruct H2 as (_ & N2 & S2).
  destruct (Nat.lt_trichotomy k1 k2) as [L|[E|L]]; [|exact E|].
  - exfalso. apply N2, S1. lia.
  - exfalso. apply N1, S2. lia.
Qed.

Lemma StronglySorted_snoc (l : list nat) (n : nat) :
  StronglySorted lt l -> Forall (fun x => (x < n)%nat) l ->
  StronglySorted lt (l ++ [n]).
Proof.
  induction 1 as [|a l Hs IH Ha]; intros Hb; simpl.
  - repeat constructor.
  - inversion Hb; subst. constructor; [now apply IH|].
    apply Forall_app. split; [exact Ha | now constructor].
Qed.

Lemma updateQuantity_products_Subseq (c : list CartItem) (i delta : Z) :
  Subseq (map product (updateQuantity c i delta)) (map product c).
Proof.
  unfold updateQuantity.
  rewrite <- (products_map_requantify
                (fun item => Z.max 0 (quantity item + delta)) i c).
  apply Subseq_map, Subseq_filter.
Qed.

Lemma updateQuantity_ids_Subseq (c : list CartItem) (i delta : Z) :
  Subseq (ids (updateQuantity c i delta)) (ids c).
Proof.
  unfold updateQuantity.
  rewrite <- (ids_map_requantify
                (fun item => Z.max 0 (quantity item + delta)) i c).
  apply ids_filter_Subseq.
Qed.

(** Calls that add no entry: the identifiers afterwards are a subsequence
    of those before, so sortedness of the stamps and their meaning carry
    over. *)
Lemma stamps_step_shrink (ops : list CartOp) (op : CartOp) (born : Z -> nat) :
  Subseq (ids (runOps (ops ++ [op]))) (ids (runOps ops)) ->
  StronglySorted lt (map born (ids (runOps ops))) /\
  (forall i, hasId (runOps ops) i -> insertedAt ops i (born i)) ->
  StronglySorted lt (map born (ids (runOps (ops ++ [op])))) /\
  (forall i, hasId (runOps (ops ++ [op])) i ->
             insertedAt (ops ++ [op]) i (born i)).
Proof.
  intros Hsub [Hs Hi]. split.
  - eapply StronglySorted_Subseq; [apply Subseq_map, Hsub | exact Hs].
  - intros i H. apply insertedAt_snoc_keep; [|exact H].
    apply Hi. unfold hasId in *. eapply Subseq_In; eauto.
Qed.

Lemma stamps_invariant (ops : list CartOp) :
  StronglySorted lt
    (map (s_born (runStamped ops)) (ids (runOps ops))) /\
  (forall i : Z, hasId (runOps ops) i ->
                 insertedAt ops i (s_born (runStamped ops) i)).
Proof.
  induction ops as [|op ops IH] using rev_ind.
  - split; [constructor | intros i []].
  - rewrite runStamped_snoc.
    destruct op as [p|i delta|i]; simpl s_born.
    + rewrite runStamped_cart, runStamped_clock.
      destruct (find (fun item : CartItem => id item =? id p) (runOps ops))
        as [x|] eqn:Hf.
      * apply stamps_step_shrink; [|exact IH].
        rewrite runOps_snoc. simpl.
        rewrite addToCart_ids_present by (eapply find_id_Some; eauto).
        apply Subseq_refl.
      * apply find_id_None in Hf. destruct IH as [Hs Hi].
        assert (Hids : ids (runOps (ops ++ [AddToCart p]))
                       = ids (runOps ops) ++ [id p]).
        { rewrite runOps_snoc. simpl.
          now rewrite addToCart_absent, ids_app by exact Hf. }
        split.
        -- rewrite Hids, map_app. simpl. rewrite Z.eqb_refl.
           rewrite (map_ext_in _ (s_born (runStamped ops))).
           ++ apply StronglySorted_snoc; [exact Hs|].
              apply Forall_forall. intros n Hn.
              apply in_map_iff in Hn as (j & <- & Hj).
              eapply insertedAt_bound, Hi, Hj.
           ++ intros j Hj. destruct (Z.eqb_spec j (id p)) as [->|]; [|reflexivity].
              contradiction.
        -- intros j Hj. destruct (Z.eqb_spec j (id p)) as [->|Hne].
           ++ now apply insertedAt_snoc_new.
           ++ apply insertedAt_snoc_keep; [|exact Hj]. apply Hi.
              unfold hasId in Hj. rewrite Hids in Hj.
              apply in_app_or in Hj as [Hj|[Hj|[]]]; [exact Hj | congruence].
    + apply stamps_step_shrink; [|exact IH].
      rewrite runOps_snoc. apply updateQuantity_ids_Subseq.
    + apply stamps_step_shrink; [|exact IH].
      rewrite runOps_snoc. apply ids_filter_Subseq.
Qed.

(** C10. Each operation keeps the entries it retains in their relative
    order, and [addToCart] of a product not yet in the cart appends the
    new entry at the end.  Hence, in every cart reached from the empty
    one, the entries stand in the order of the calls that inserted them:
    the stamp of each identifier present is the one call that inserted its
    entry (an [addToCart] that found no entry for it, the entry having
    stayed since; later increments do not move it), and the stamps
    increase strictly along the cart. *)
Theorem cart_keeps_insertion_order :
  (forall (c : list CartItem) (p : Product),
     hasId c (id p) -> map product (addToCart c p) = map product c) /\
  (forall (c : list CartItem) (p : Product),
     ~ hasId c (id p) ->
     addToCart c p = c ++ [ {| product := p; quantity := 1 |} ]) /\
  (forall (c : list CartItem) (i delta : Z),
     Subseq (map product (updateQuantity c i delta)) (map product c)) /\
  (forall (c : list CartItem) (i : Z), Subseq (removeFromCart c i) c) /\
  (forall ops : list CartOp,
     s_cart (runStamped ops) = runOps ops /\
     StronglySorted lt (map (s_born (runStamped ops)) (ids (runOps ops))) /\
     (forall (i : Z) (k : nat),
        hasId (runOps ops) i ->
        (insertedAt ops i k <-> k = s_born (runStamped ops) i))).
Proof.
  split; [|split; [|split; [|split]]].
  - intros c p H. apply hasId_find in H as [x Hx].
    unfold addToCart. rewrite Hx.
    apply (products_map_requantify (fun item => quantity item + 1)).
  - apply addToCart_absent.
  - apply updateQuantity_products_Subseq.
  - intros c i. apply Subseq_filter.
  - intros ops. destruct (stamps_invariant ops) as [Hs Hi].
    split; [apply runStamped_cart | split; [exact Hs|]].
    intros i k H. split.
    + intros Hk. eapply insertedAt_unique; [exact Hk | now apply Hi].
    + intros ->. now apply Hi.
Qed.

Lemma cart_keeps_insertion_order_witness :
  addToCart [entry ring 4] shirt = [entry ring 4; entry shirt 1] /\
  insertedAt [AddToCart shirt; AddToCart ring; AddToCart shirt] 5 1.
Proof.
  destruct cart_keeps_insertion_order as (_ & Hnew & _ & _ & Hrun).
  split.
  - apply Hnew. no_such_id.
  - destruct (Hrun [AddToCart shirt; AddToCart ring; AddToCart shirt])
      as (_ & _ & H).
    apply (H 5 1%nat); [|reflexivity].
    unfold hasId, ids. simpl. right. left. reflexivity.
Defined.

Example increments_do_not_move :
  runOps [AddToCart shirt; AddToCart ring; AddToCart shirt]
    = [entry shirt 2; entry ring 1] /\
  map (s_born (runStamped [AddToCart shirt; AddToCart ring; AddToCart shirt]))
      [1; 5] = [0%nat; 1%nat].
Proof. split; reflexivity. Qed.

Example readded_entry_goes_last :
  runOps [AddToCart shirt; AddToCart ring; RemoveFromCart 1; AddToCart shirt]
    = [entry ring 1; entry shirt 1] /\
  map (s_born (runStamped [AddToCart shirt; AddToCart ring;
                           RemoveFromCart 1; AddToCart shirt]))
      [5; 1] = [1%nat; 3%nat].
Proof. split; reflexivity. Qed.

(** * Further properties of the component *)

(** ** How the cart operations move the item count *)

Lemma totalItems_sum (c : list CartItem) : totalItems c = sumQuantities c.
Proof. unfold totalItems. rewrite totalItems_from. lia. Qed.

Lemma sumQuantities_app (c1 c2 : list CartItem) :
  sumQuantities (c1 ++ c2) = sumQuantities c1 + sumQuantities c2.
Proof. induction c1 as [|x c1 IH]; simpl; [reflexivity | rewrite IH; lia]. Qed.

Lemma find_split (l1 l2 : list CartItem) (it : CartItem) :
  ~ hasId l1 (id it) ->
  find (fun item : CartItem => id item =? id it) (l1 ++ it :: l2) = Some it.
Proof.
  unfold hasId, ids. induction l1 as [|x l1 IH]; simpl; intros H.
  - now rewrite Z.eqb_refl.
  - destruct (Z.eqb_spec (id x) (id it)) as [E|E].
    + exfalso. apply H. now left.
    + apply IH. intros H1. apply H. now right.
Qed.

Lemma addToCart_split (l1 l2 : list CartItem) (it : CartItem) (p : Product) :
  id p = id it -> ~ hasId l1 (id it) -> ~ hasId l2 (id it) ->
  addToCart (l1 ++ it :: l2) p =
    l1 ++ with_quantity it (quantity it + 1) :: l2.
Proof.
  intros E A1 A2. unfold addToCart. rewrite E, (find_split l1 l2 it A1).
  rewrite map_app. simpl. rewrite Z.eqb_refl.
  rewrite (map_requantify_absent (fun item => quantity item + 1) (id it) l1 A1).
  rewrite (map_requantify_absent (fun item => quantity item + 1) (id it) l2 A2).
  reflexivity.
Qed.

(** X1. On a cart with distinct identifiers [addToCart p] raises the item
    count by exactly one, whether [p] was in the cart or not. *)
Theorem addToCart_totals (c : list CartItem) (p : Product) :
  uniqueIds c ->
  totalItems (addToCart c p) = totalItems c + 1.
Proof.
  intros U. rewrite !totalItems_sum.
  destruct (find (fun item : CartItem => id item =? id p) c) as [x|] eqn:Hf.
  - pose proof (find_some _ _ Hf) as [Hin Hid]. apply Z.eqb_eq in Hid.
    apply in_split in Hin as (l1 & l2 & ->).
    destruct (uniqueIds_split _ _ _ U) as [A1 A2].
    rewrite (addToCart_split l1 l2 x p (eq_sym Hid) A1 A2).
    rewrite !sumQuantities_app. simpl. lia.
  - apply find_id_None in Hf. rewrite (addToCart_absent c p Hf).
    rewrite sumQuantities_app. simpl. lia.
Qed.

Lemma addToCart_totals_witness :
  totalItems (addToCart [entry ring 4; entry shirt 2] shirt) = 7.
Proof.
  rewrite (addToCart_totals [entry ring 4; entry shirt 2] shirt);
    [reflexivity | distinct_ids].
Defined.

(** X2. On a cart with distinct identifiers, removing an entry lowers the
    item count by that entry's quantity. *)
Theorem removeFromCart_totals (c : list CartItem) (it : CartItem) :
  uniqueIds c -> In it c ->
  totalItems (removeFromCart c (id it)) = totalItems c - quantity it.
Proof.
  intros U Hin. apply in_split in Hin as (l1 & l2 & ->).
  destruct (uniqueIds_split _ _ _ U) as [A1 A2].
  rewrite (removeFromCart_split l1 l2 it A1 A2).
  rewrite !totalItems_sum, !sumQuantities_app. simpl. lia.
Qed.

Lemma removeFromCart_totals_witness :
  totalItems (removeFromCart [entry ring 4; entry shirt 2] 5) = 2.
Proof.
  apply (removeFromCart_totals [entry ring 4; entry shirt 2] (entry ring 4));
    [distinct_ids | simpl; now left].
Defined.

Lemma requantified_sum (it : CartItem) (n : Z) :
  0 <= n ->
  sumQuantities (if n <=? 0 then [] else [with_quantity it n]) = n.
Proof.
  intros Hn. destruct (Z.leb_spec n 0) as [L|L]; simpl; lia.
Qed.

(** X3. On a cart satisfying the two invariants, [updateQuantity] on an
    entry of quantity [q] changes the item count by [max (-q) delta]: by
    [delta] itself as long as the entry survives, and by no more than the
    entry's own quantity when it is dropped. *)
Theorem updateQuantity_totals (c : list CartItem) (it : CartItem) (delta : Z) :
  uniqueIds c -> positiveQuantities c -> In it c ->
  totalItems (updateQuantity c (id it) delta) =
    totalItems c + Z.max (- quantity it) delta.
Proof.
  intros U P Hin. apply in_split in Hin as (l1 & l2 & ->).
  destruct (uniqueIds_split _ _ _ U) as [A1 A2].
  destruct (positive_app _ _ P) as [P1 P2].
  assert (P2' : positiveQuantities l2) by (inversion P2; assumption).
  rewrite (updateQuantity_split l1 l2 it delta A1 A2 P1 P2').
  pose proof (requantified_sum it (Z.max 0 (quantity it + delta))) as Hq.
  rewrite !totalItems_sum, !sumQuantities_app, Hq by lia. simpl. lia.
Qed.

Lemma updateQuantity_totals_witness :
  totalItems (updateQuantity [entry ring 4; entry shirt 2] 1 (-5)) = 4 /\
  totalItems (updateQuantity [entry ring 4; entry shirt 2] 5 (-1)) = 5.
Proof.
  split.
  - apply (updateQuantity_totals [entry ring 4; entry shirt 2]
             (entry shirt 2) (-5));
      [distinct_ids | all_positive | simpl; right; now left].
  - apply (updateQuantity_totals [entry ring 4; entry shirt 2]
             (entry ring 4) (-1));
      [distinct_ids | all_positive | simpl; now left].
Defined.

Lemma positive_sum_bounds (c : list CartItem) :
  positiveQuantities c -> Z.of_nat (List.length c) <= sumQuantities c.
Proof.
  induction 1 as [|x l Hx _ IH]; simpl List.length; simpl sumQuantities; lia.
Qed.

(** X4. In every cart reached from the empty one the three rendering
    tests agree: the badge on the cart icon ([totalItems > 0]) is shown
    exactly when the footer with the total is ([cart.length > 0]), that
    is exactly when the empty-cart message is not; and the number on the
    badge is at least the number of lines in the cart. *)
Theorem badge_agrees_with_cart_lines (ops : list CartOp) :
  badgeShown (runOps ops) = footerShown (runOps ops) /\
  footerShown (runOps ops) = negb (emptyCartShown (runOps ops)) /\
  Z.of_nat (List.length (runOps ops)) <= totalItems (runOps ops).
Proof.
  assert (P : positiveQuantities (runOps ops)).
  { induction ops as [|op ops IH] using rev_ind; [constructor|].
    rewrite runOps_snoc. destruct op; simpl; auto with cart. }
  pose proof (positive_sum_bounds _ P) as B.
  unfold badgeShown, footerShown, emptyCartShown.
  rewrite totalItems_sum.
  destruct (runOps ops) as [|x l]; [repeat split; simpl; lia|].
  simpl List.length in *. repeat split; [|lia].
  replace (sumQuantities (x :: l) >? 0) with true
    by (symmetry; apply Z.gtb_lt; lia).
  reflexivity.
Qed.

(** ** How the cart operations compose *)

Lemma updateQuantity_cons (a : CartItem) (c : list CartItem) (i d : Z) :
  updateQuantity (a :: c) i d =
    (if id a =? i
     then if Z.max 0 (quantity a + d) >? 0
          then [with_quantity a (Z.max 0 (quantity a + d))] else []
     else if quantity a >? 0 then [a] else [])
    ++ updateQuantity c i d.
Proof.
  unfold updateQuantity. simpl.
  destruct (id a =? i); simpl;
    match goal with |- context [?q >? 0] => destruct (q >? 0) end;
    reflexivity.
Qed.

Lemma removeFromCart_cons (a : CartItem) (c : list CartItem) (i : Z) :
  removeFromCart (a :: c) i =
    (if id a =? i then [] else [a]) ++ removeFromCart c i.
Proof. unfold removeFromCart. simpl. destruct (id a =? i); reflexivity. Qed.

(** X5. On a cart with positive quantities the plus button of a line,
    [updateQuantity i 1], does what [addToCart] does for a product with
    that identifier. *)
Theorem plus_button_is_addToCart (c : list CartItem) (p : Product) :
  positiveQuantities c -> hasId c (id p) ->
  updateQuantity c (id p) 1 = addToCart c p.
Proof.
  intros P H. apply hasId_find in H as [x Hx].
  unfold addToCart. rewrite Hx. clear Hx.
  induction P as [|a l Ha _ IH]; [reflexivity|].
  rewrite updateQuantity_cons, IH. simpl.
  destruct (id a =? id p).
  - replace (Z.max 0 (quantity a + 1)) with (quantity a + 1) by lia.
    replace (quantity a + 1 >? 0) with true
      by (symmetry; apply Z.gtb_lt; lia).
    reflexivity.
  - replace (quantity a >? 0) with true by (symmetry; apply Z.gtb_lt; lia).
    reflexivity.
Qed.

Lemma plus_button_is_addToCart_witness :
  updateQuantity [entry ring 4; entry shirt 2] 1 1
    = addToCart [entry ring 4; entry shirt 2] shirt.
Proof.
  apply (plus_button_is_addToCart [entry ring 4; entry shirt 2] shirt).
  - all_positive.
  - unfold hasId, ids. simpl. right. now left.
Defined.

(** X6. On a cart with positive quantities, an increase by [d >= 0]
    followed by any change [e] of the same line is the single change
    [d + e]. *)
Theorem updateQuantity_after_increase (c : list CartItem) (i d e : Z) :
  positiveQuantities c -> 0 <= d ->
  updateQuantity (updateQuantity c i d) i e = updateQuantity c i (d + e).
Proof.
  intros P Hd. induction P as [|a l Ha _ IH]; [reflexivity|].
  rewrite (updateQuantity_cons a l i d), (updateQuantity_cons a l i (d + e)).
  destruct (id a =? i) eqn:Ea.
  - replace (Z.max 0 (quantity a + d) >? 0) with true
      by (symmetry; apply Z.gtb_lt; lia).
    simpl app at 1. rewrite updateQuantity_cons. simpl id. rewrite Ea, IH.
    simpl quantity.
    replace (Z.max 0 (Z.max 0 (quantity a + d) + e))
      with (Z.max 0 (quantity a + (d + e))) by lia.
    reflexivity.
  - replace (quantity a >? 0) with true by (symmetry; apply Z.gtb_lt; lia).
    simpl app at 1. rewrite updateQuantity_cons, Ea, IH.
    replace (quantity a >? 0) with true by (symmetry; apply Z.gtb_lt; lia).
    reflexivity.
Qed.

Lemma updateQuantity_after_increase_witness :
  updateQuantity (updateQuantity [entry ring 4; entry shirt 2] 1 3) 1 (-5)
    = updateQuantity [entry ring 4; entry shirt 2] 1 (-2).
Proof.
  apply (updateQuantity_after_increase
           [entry ring 4; entry shirt 2] 1 3 (-5)).
  - all_positive.
  - discriminate.
Defined.

(** X7. On a cart satisfying the two invariants, once a change takes a
    line to zero or below the line is gone for good: whatever change of
    that line follows, the result is the cart with the entry removed.  In
    particular minus on a line of quantity 1 followed by plus does not
    bring the line back. *)
Theorem dropped_line_stays_dropped
    (c : list CartItem) (it : CartItem) (d e : Z) :
  uniqueIds c -> positiveQuantities c -> In it c ->
  quantity it + d <= 0 ->
  updateQuantity (updateQuantity c (id it) d) (id it) e
    = removeFromCart c (id it).
Proof.
  intros U P Hin Hd. apply in_split in Hin as (l1 & l2 & ->).
  destruct (uniqueIds_split _ _ _ U) as [A1 A2].
  destruct (positive_app _ _ P) as [P1 P2].
  assert (P2' : positiveQuantities l2) by (inversion P2; assumption).
  rewrite (updateQuantity_split l1 l2 it d A1 A2 P1 P2').
  rewrite (removeFromCart_split l1 l2 it A1 A2).
  replace (Z.max 0 (quantity it + d)) with 0 by lia. simpl.
  apply updateQuantity_absent.
  - apply Forall_app. split; assumption.
  - unfold hasId. rewrite ids_app. intros H.
    apply in_app_or in H as [H|H]; contradiction.
Qed.

Lemma dropped_line_stays_dropped_witness :
  updateQuantity (updateQuantity [entry ring 4; entry drive 1] 9 (-1)) 9 1
    = [entry ring 4].
Proof.
  apply (dropped_line_stays_dropped
           [entry ring 4; entry drive 1] (entry drive 1) (-1) 1).
  - distinct_ids.
  - all_positive.
  - simpl. right. now left.
  - discriminate.
Defined.

Lemma removeFromCart_requantified (f : CartItem -> Z) (c : list CartItem) (i : Z) :
  removeFromCart
    (map (fun item : CartItem =>
            if id item =? i then with_quantity item (f item) else item) c) i
  = removeFromCart c i.
Proof.
  induction c as [|a c IH]; [reflexivity|].
  simpl map. rewrite !removeFromCart_cons, IH.
  destruct (id a =? i) eqn:Ea; simpl; rewrite Ea; reflexivity.
Qed.

(** X8. Adding a product and then removing its identifier gives the cart
    with that identifier removed, whatever the cart held before; when the
    product was not in the cart this is the cart itself. *)
Theorem add_then_remove (c : list CartItem) (p : Product) :
  removeFromCart (addToCart c p) (id p) = removeFromCart c (id p) /\
  (~ hasId c (id p) -> removeFromCart (addToCart c p) (id p) = c).
Proof.
  assert (E : removeFromCart (addToCart c p) (id p) = removeFromCart c (id p)).
  { unfold addToCart.
    destruct (find (fun item : CartItem => id item =? id p) c).
    - apply (removeFromCart_requantified (fun item => quantity item + 1)).
    - unfold removeFromCart. rewrite filter_app. simpl.
      rewrite Z.eqb_refl. simpl. apply app_nil_r. }
  split; [exact E|].
  intros H. rewrite E. now apply removeFromCart_absent.
Qed.

Lemma add_then_remove_witness :
  removeFromCart (addToCart [entry ring 4] shirt) 1 = [entry ring 4].
Proof.
  destruct (add_then_remove [entry ring 4] shirt) as [_ H].
  apply H. no_such_id.
Defined.

Lemma updateQuantity_app (c1 c2 : list CartItem) (i d : Z) :
  updateQuantity (c1 ++ c2) i d = updateQuantity c1 i d ++ updateQuantity c2 i d.
Proof. unfold updateQuantity. now rewrite map_app, filter_app. Qed.

Lemma removeFromCart_app (c1 c2 : list CartItem) (i : Z) :
  removeFromCart (c1 ++ c2) i = removeFromCart c1 i ++ removeFromCart c2 i.
Proof. unfold removeFromCart. apply filter_app. Qed.

Lemma hasId_removeFromCart (c : list CartItem) (i j : Z) :
  hasId (removeFromCart c j) i <-> hasId c i /\ i <> j.
Proof.
  unfold hasId, ids. rewrite !in_map_iff. split.
  - intros (x & E & Hx). apply removeFromCart_In in Hx as [Hx Hne].
    split; [exists x; auto | congruence].
  - intros ((x & E & Hx) & Hne). exists x. split; [exact E|].
    apply removeFromCart_In. split; [exact Hx | congruence].
Qed.

Lemma updateQuantity_commute (c : list CartItem) (i j d e : Z) :
  positiveQuantities c -> i <> j ->
  updateQuantity (updateQuantity c i d) j e
    = updateQuantity (updateQuantity c j e) i d.
Proof.
  intros P Hne. induction P as [|a c Ha _ IH]; [reflexivity|].
  rewrite (updateQuantity_cons a c i d), (updateQuantity_cons a c j e).
  rewrite !updateQuantity_app, IH. f_equal.
  assert (Hq : (quantity a >? 0) = true) by (apply Z.gtb_lt; exact Ha).
  rewrite Hq.
  destruct (id a =? i) eqn:Ei; destruct (id a =? j) eqn:Ej.
  - apply Z.eqb_eq in Ei, Ej. congruence.
  - destruct (Z.max 0 (quantity a + d) >? 0) eqn:Hd;
      unfold updateQuantity; simpl; rewrite ?Ei, ?Ej; simpl;
      rewrite ?Hd, ?Hq; reflexivity.
  - destruct (Z.max 0 (quantity a + e) >? 0) eqn:He;
      unfold updateQuantity; simpl; rewrite ?Ei, ?Ej; simpl;
      rewrite ?He, ?Hq; reflexivity.
  - unfold updateQuantity; simpl; rewrite ?Ei, ?Ej; simpl;
      rewrite ?Hq; reflexivity.
Qed.

Lemma removeFromCart_updateQuantity (c : list CartItem) (i j d : Z) :
  removeFromCart (updateQuantity c i d) j
    = updateQuantity (removeFromCart c j) i d.
Proof.
  induction c as [|a c IH]; [reflexivity|].
  rewrite updateQuantity_cons, removeFromCart_cons.
  rewrite removeFromCart_app, updateQuantity_app, IH. f_equal.
  destruct (id a =? i) eqn:Ei; destruct (id a =? j) eqn:Ej;
    repeat match goal with
           | |- context [?q >? 0] => destruct (q >? 0) eqn:?
           end;
    unfold updateQuantity, removeFromCart; simpl; rewrite ?Ei, ?Ej; simpl;
    repeat match goal with
           | H : (_ >? 0) = _ |- _ => rewrite ?H; clear H
           end;
    reflexivity.
Qed.

Lemma removeFromCart_commute (c : list CartItem) (i j : Z) :
  removeFromCart (removeFromCart c i) j = removeFromCart (removeFromCart c j) i.
Proof.
  unfold removeFromCart. rewrite !filter_twice. apply filter_ext.
  intros a. apply andb_comm.
Qed.

Lemma removeFromCart_idempotent (c : list CartItem) (i : Z) :
  removeFromCart (removeFromCart c i) i = removeFromCart c i.
Proof.
  unfold removeFromCart. rewrite filter_twice. apply filter_ext.
  intros a. apply andb_diag.
Qed.

Lemma removeFromCart_map_other (f : CartItem -> Z) (c : list CartItem) (i j : Z) :
  removeFromCart
    (map (fun item : CartItem =>
            if id item =? i then with_quantity item (f item) else item) c) j
  = map (fun item : CartItem =>
           if id item =? i then with_quantity item (f item) else item)
        (removeFromCart c j).
Proof.
  induction c as [|a c IH]; [reflexivity|].
  simpl map. rewrite !removeFromCart_cons, IH.
  destruct (id a =? i) eqn:Ei; simpl; destruct (id a =? j) eqn:Ej; simpl;
    rewrite ?Ei; reflexivity.
Qed.

Lemma removeFromCart_addToCart (c : list CartItem) (p : Product) (j : Z) :
  j <> id p ->
  removeFromCart (addToCart c p) j = addToCart (removeFromCart c j) p.
Proof.
  intros Hne. unfold addToCart.
  destruct (find (fun item : CartItem => id item =? id p) c) as [x|] eqn:Hf.
  - apply find_id_Some in Hf.
    assert (H : hasId (removeFromCart c j) (id p))
      by (apply hasId_removeFromCart; split; [exact Hf | congruence]).
    apply hasId_find in H as [y Hy]. rewrite Hy.
    apply (removeFromCart_map_other (fun item => quantity item + 1)).
  - apply find_id_None in Hf.
    assert (H : ~ hasId (removeFromCart c j) (id p))
      by (intros H; apply hasId_removeFromCart in H as [H _]; contradiction).
    apply find_id_None in H. rewrite H.
    rewrite removeFromCart_app. f_equal.
    unfold removeFromCart. simpl.
    destruct (Z.eqb_spec (id p) j); [congruence | reflexivity].
Qed.

(** X9. Calls about different lines do not interfere, and removals are
    order-free: on a cart with positive quantities two quantity changes of
    different identifiers commute; on any cart a removal commutes with any
    quantity change and with any other removal, and repeating it changes
    nothing; removing one identifier commutes with adding a product of
    another. *)
Theorem cart_calls_commute (c : list CartItem) (i j d e : Z) (p : Product) :
  (positiveQuantities c -> i <> j ->
     updateQuantity (updateQuantity c i d) j e
       = updateQuantity (updateQuantity c j e) i d) /\
  removeFromCart (updateQuantity c i d) j
    = updateQuantity (removeFromCart c j) i d /\
  removeFromCart (removeFromCart c i) j
    = removeFromCart (removeFromCart c j) i /\
  removeFromCart (removeFromCart c i) i = removeFromCart c i /\
  (j <> id p ->
     removeFromCart (addToCart c p) j = addToCart (removeFromCart c j) p).
Proof.
  split; [apply updateQuantity_commute|].
  split; [apply removeFromCart_updateQuantity|].
  split; [apply removeFromCart_commute|].
  split; [apply removeFromCart_idempotent | apply removeFromCart_addToCart].
Qed.

Lemma cart_calls_commute_witness :
  updateQuantity (updateQuantity [entry ring 4; entry shirt 2] 5 (-4)) 1 3
    = updateQuantity (updateQuantity [entry ring 4; entry shirt 2] 1 3) 5 (-4) /\
  removeFromCart (addToCart [entry ring 4] shirt) 5
    = addToCart (removeFromCart [entry ring 4] 5) shirt.
Proof.
  destruct (cart_calls_commute [entry ring 4; entry shirt 2] 5 1 (-4) 3 shirt)
    as (H & _).
  destruct (cart_calls_commute [entry ring 4] 5 5 0 0 shirt)
    as (_ & _ & _ & _ & H').
  split; [apply H; [all_positive | discriminate] | apply H'; discriminate].
Defined.

(** ** The visible list *)

Lemma string_app_assoc (a b c : string) :
  ((a ++ b) ++ c)%string = (a ++ (b ++ c))%string.
Proof. induction a as [|x a IH]; simpl; [reflexivity | now rewrite IH]. Qed.

Lemma includes_empty (t : string) : includes t "" = true.
Proof. apply includes_iff. now exists ""%string, t. Qed.

Lemma containsText_trans (t s' s : string) :
  containsText t s' -> containsText s' s -> containsText t s.
Proof.
  intros (a & b & H1) (c & d & H2).
  exists (a ++ c)%string, (d ++ b)%string.
  rewrite H1, H2. now rewrite !string_app_assoc.
Qed.

Lemma Subseq_filter_impl {A : Type} (f g : A -> bool) (l : list A) :
  (forall x, f x = true -> g x = true) ->
  Subseq (filter f l) (filter g l).
Proof.
  intros H. induction l as [|x l IH]; simpl; [constructor|].
  destruct (f x) eqn:Ef.
  - rewrite (H x Ef). now constructor.
  - destruct (g x); [constructor|]; exact IH.
Qed.

Section ComponentProperties.
Context {builtin : LowerCase}.

Lemma searchEffect_visibleList (st : AppState) :
  filteredProducts (searchEffect st) =
  visibleList (products st) (selectedCategory st) (searchQuery st).
Proof. apply searchEffect_filtered. Qed.

(** Both effects write [filteredProducts] and nothing else. *)
Lemma runEffects_frame (ch : Changed) (st : AppState) :
  products (runEffects ch st) = products st /\
  selectedCategory (runEffects ch st) = selectedCategory st /\
  searchQuery (runEffects ch st) = searchQuery st /\
  cart (runEffects ch st) = cart st /\
  loading (runEffects ch st) = loading st /\
  error (runEffects ch st) = error st /\
  isCartOpen (runEffects ch st) = isCartOpen st.
Proof.
  unfold runEffects, searchEffect, categoryEffect.
  destruct (categoryChanged ch || productsChanged ch),
    (searchChanged ch || productsChanged ch || categoryChanged ch),
    (selectedCategory st =? "all")%string; simpl;
    repeat split; try reflexivity;
    destruct (selectedCategory st =? "all")%string; reflexivity.
Qed.

Lemma runEffects_visibleList (ch : Changed) (st : AppState) :
  anyChanged ch = true ->
  filteredProducts (runEffects ch st) =
  visibleList (products st) (selectedCategory st) (searchQuery st).
Proof.
  intros Hch. unfold runEffects.
  replace (searchChanged ch || productsChanged ch || categoryChanged ch)
    with true
    by (unfold anyChanged in Hch; rewrite <- Hch;
        destruct (productsChanged ch), (categoryChanged ch),
          (searchChanged ch); reflexivity).
  rewrite searchEffect_visibleList.
  destruct (categoryChanged ch || productsChanged ch); [|reflexivity].
  now destruct (categoryEffect_inputs st) as (-> & -> & ->).
Qed.

Lemma runEffects_unchanged (st : AppState) :
  runEffects {| productsChanged := false; categoryChanged := false;
                searchChanged := false |} st = st.
Proof. reflexivity. Qed.

(** X10. With category 'all' and an empty search box the visible list is
    the whole catalogue, unfiltered and in its order. *)
Theorem no_filter_shows_catalogue (ch : Changed) (st : AppState) :
  anyChanged ch = true ->
  selectedCategory st = "all"%string -> searchQuery st = ""%string ->
  filteredProducts (runEffects ch st) = products st.
Proof.
  intros Hch Hk Hs. rewrite (runEffects_visibleList ch st Hch), Hk, Hs.
  unfold visibleList. apply filter_keeps_all, Forall_forall.
  intros p _. simpl. rewrite toLowerCase_empty. apply includes_empty.
Qed.

(** X11. Refining a filter can only take products away.  If the
    lower-cased new search text contains the lower-cased old one, the new
    visible list is a subsequence of the old one; and what a category
    shows is a subsequence of what 'all' shows for the same search
    text. *)
Theorem refining_the_filter_narrows (st : AppState) (s s' k : string) :
  (lowerContains s' s ->
     Subseq (filteredProducts (searchEffect (setSearchQuery s' st)))
            (filteredProducts (searchEffect (setSearchQuery s st)))) /\
  Subseq (filteredProducts (searchEffect (setSelectedCategory k st)))
         (filteredProducts (searchEffect (setSelectedCategory "all" st))).
Proof.
  split.
  - intros H. rewrite !searchEffect_visibleList. simpl.
    apply Subseq_filter_impl. intros p Hp.
    apply andb_true_iff in Hp as [Hc Ht]. apply andb_true_iff.
    split; [exact Hc|]. apply includes_iff.
    apply includes_iff in Ht.
    exact (containsText_trans _ _ _ Ht H).
  - rewrite !searchEffect_visibleList. simpl.
    apply Subseq_filter_impl. intros p Hp.
    apply andb_true_iff in Hp as [_ Ht]. exact Ht.
Qed.

(** ** The component as a whole *)

Lemma tryBlock_cases (r : FetchResult) (st : AppState) :
  (exists data : list Product,
     tryBlock r st = inl (setFilteredProducts data (setProducts data st))) \/
  (exists err : Thrown, tryBlock r st = inr err).
Proof.
  destruct r as [[[] [data|e]]|e]; simpl; eauto.
Qed.

Lemma dispatch_viewConsistent (st : AppState) (ev : Event) :
  viewConsistent st -> viewConsistent (dispatch st ev).
Proof.
  intros H. unfold viewConsistent in *.
  destruct ev as [r|v|k|p|i|i|i| |]; simpl dispatch; try exact H.
  - destruct (catalogueWritten r st) eqn:W.
    + rewrite runEffects_visibleList by reflexivity.
      now destruct (runEffects_frame
                      {| productsChanged := true; categoryChanged := false;
                         searchChanged := false |} (settle r st))
        as (-> & -> & -> & _).
    + rewrite runEffects_unchanged. unfold settle.
      unfold catalogueWritten in W.
      destruct (tryBlock r st); [discriminate W | exact H].
  - destruct (searchQuery st =? v)%string eqn:E; simpl negb.
    + apply String.eqb_eq in E. subst v. rewrite runEffects_unchanged.
      exact H.
    + rewrite runEffects_visibleList by reflexivity.
      now destruct (runEffects_frame
                      {| productsChanged := false; categoryChanged := false;
                         searchChanged := true |} (setSearchQuery v st))
        as (-> & -> & -> & _).
  - destruct (selectedCategory st =? k)%string eqn:E; simpl negb.
    + apply String.eqb_eq in E. subst k. rewrite runEffects_unchanged.
      exact H.
    + rewrite runEffects_visibleList by reflexivity.
      now destruct (runEffects_frame
                      {| productsChanged := false; categoryChanged := true;
                         searchChanged := false |} (setSelectedCategory k st))
        as (-> & -> & -> & _).
Qed.

Lemma runEvents_snoc (evs : list Event) (ev : Event) :
  runEvents (evs ++ [ev]) = dispatch (runEvents evs) ev.
Proof. unfold runEvents. rewrite fold_left_app. reflexivity. Qed.

Lemma runEvents_viewConsistent (evs : list Event) :
  viewConsistent (runEvents evs).
Proof.
  induction evs as [|ev evs IH] using rev_ind; [reflexivity|].
  rewrite runEvents_snoc. now apply dispatch_viewConsistent.
Qed.

(** X12. Whatever the history of events (typing, category clicks, cart
    clicks, the request settling at any moment), the list on display is
    never stale: it is the catalogue held at that moment filtered by the
    category and search text held at that moment.  It is therefore a
    subsequence of the catalogue, and the keys of the grid are distinct
    whenever the identifiers of the catalogue are. *)
Theorem view_is_never_stale (evs : list Event) :
  filteredProducts (runEvents evs) =
    visibleList (products (runEvents evs))
                (selectedCategory (runEvents evs))
                (searchQuery (runEvents evs)) /\
  Subseq (filteredProducts (runEvents evs)) (products (runEvents evs)) /\
  (NoDup (map id (products (runEvents evs))) ->
   NoDup (map id (filteredProducts (runEvents evs)))).
Proof.
  pose proof (runEvents_viewConsistent evs) as H. unfold viewConsistent in H.
  split; [exact H|].
  assert (S : Subseq (filteredProducts (runEvents evs))
                     (products (runEvents evs)))
    by (rewrite H; apply Subseq_filter).
  split; [exact S|].
  intros N. eapply Subseq_NoDup; [apply Subseq_map, S | exact N].
Qed.

Lemma runOps_app (ops1 ops2 : list CartOp) :
  runOps (ops1 ++ ops2) = fold_left applyOp ops2 (runOps ops1).
Proof. unfold runOps. apply fold_left_app. Qed.

Lemma dispatch_cart (st : AppState) (ev : Event) :
  cart (dispatch st ev) = fold_left applyOp (cartOp ev) (cart st).
Proof.
  destruct ev as [r|v|k|p|i|i|i| |]; simpl dispatch; try reflexivity.
  - destruct (runEffects_frame
                {| productsChanged := catalogueWritten r st;
                   categoryChanged := false; searchChanged := false |}
                (settle r st)) as (_ & _ & _ & -> & _).
    unfold settle. destruct (tryBlock_cases r st) as [[data ->]|[err ->]];
      reflexivity.
  - now destruct (runEffects_frame
                    {| productsChanged := false; categoryChanged := false;
                       searchChanged := negb (searchQuery st =? v)%string |}
                    (setSearchQuery v st)) as (_ & _ & _ & -> & _).
  - now destruct (runEffects_frame
                    {| productsChanged := false;
                       categoryChanged := negb (selectedCategory st =? k)%string;
                       searchChanged := false |}
                    (setSelectedCategory k st)) as (_ & _ & _ & -> & _).
Qed.

Lemma runOps_invariants (ops : list CartOp) :
  uniqueIds (runOps ops) /\ positiveQuantities (runOps ops).
Proof.
  induction ops as [|op ops IH] using rev_ind.
  - split; constructor.
  - rewrite runOps_snoc. apply applyOp_invariant. exact IH.
Qed.

(** X13. The cart is driven by the cart buttons alone: after any history
    of events it is the cart obtained from the empty one by the calls of
    the Add, minus, plus and remove clicks of that history, in order.
    Typing, category clicks, the request settling and opening or closing
    the drawer never change it; so the cart of the running component
    always has distinct identifiers and positive quantities. *)
Theorem cart_follows_cart_clicks (evs : list Event) :
  cart (runEvents evs) = runOps (cartOps evs) /\
  uniqueIds (cart (runEvents evs)) /\
  positiveQuantities (cart (runEvents evs)).
Proof.
  assert (E : cart (runEvents evs) = runOps (cartOps evs)).
  { induction evs as [|ev evs IH] using rev_ind; [reflexivity|].
    rewrite runEvents_snoc, dispatch_cart, IH.
    unfold cartOps. rewrite flat_map_app, runOps_app. simpl.
    now rewrite app_nil_r. }
  rewrite E. split; [reflexivity | apply runOps_invariants].
Qed.

(** ** What can be reached through the page *)

Lemma mainPanel_grid (st : AppState) (shown : list Product) :
  mainPanel st = ProductGrid shown ->
  loading st = false /\ error st = ""%string /\ shown = filteredProducts st.
Proof.
  unfold mainPanel. destruct (loading st); [discriminate|].
  destruct (error st =? "")%string eqn:E; simpl; [|discriminate].
  apply String.eqb_eq in E.
  destruct (List.length (filteredProducts st) =? 0)%nat; [discriminate|].
  intros H. injection H as <-. auto.
Qed.

Lemma visibleList_In (C : list Product) (k s : string) (p : Product) :
  In p (visibleList C k s) -> In p C.
Proof. unfold visibleList. intros H. now apply filter_In in H. Qed.

Section CartProducts.
Variable Q : Product -> Prop.

Let QItem (item : CartItem) : Prop := Q (product item).

Lemma addToCart_products (c : list CartItem) (p : Product) :
    Forall QItem c -> Q p -> Forall QItem (addToCart c p).
Proof.
    intros H Hp. unfold addToCart.
    destruct (find (fun item : CartItem => id item =? id p) c).
    - apply Forall_map. eapply Forall_impl; [|exact H].
      intros a Ha. now destruct (id a =? id p).
    - apply Forall_app. split; [exact H | now constructor].
Qed.

Lemma updateQuantity_products (c : list CartItem) (i delta : Z) :
    Forall QItem c -> Forall QItem (updateQuantity c i delta).
Proof.
    intros H. unfold updateQuantity. apply Forall_forall. intros a Ha.
    apply filter_In in Ha as [Ha _]. apply in_map_iff in Ha as (b & <- & Hb).
    assert (Hq : QItem b) by (revert b Hb; now apply Forall_forall).
    now destruct (id b =? i).
Qed.

Lemma removeFromCart_products (c : list CartItem) (i : Z) :
    Forall QItem c -> Forall QItem (removeFromCart c i).
Proof.
    intros H. unfold removeFromCart. apply Forall_forall. intros a Ha.
    apply filter_In in Ha as [Ha _]. revert a Ha. now apply Forall_forall.
Qed.

End CartProducts.

Lemma hasId_nil (i : Z) : ~ hasId [] i.
Proof. intros []. Qed.

(** The facts that hold together in every state the page can reach. *)
Lemma reachable_invariant (st : AppState) :
  Reachable st ->
  viewConsistent st /\
  (loading st = true ->
     products st = [] /\ error st = ""%string /\ cart st = []) /\
  (error st <> ""%string -> products st = []) /\
  Forall (fun item : CartItem => In (product item) (products st)) (cart st) /\
  In (selectedCategory st) (map categoryId categories).
Proof.
  induction 1 as [|st ev HR IH Hen].
  - split; [reflexivity|]. split; [intros _; repeat split|].
    split; [intros _; reflexivity|].
    split; [constructor | simpl; now left].
  - destruct IH as (V & L & E & F & K).
    split; [now apply dispatch_viewConsistent|].
    assert (Hline : forall i : Z, hasId (cart st) i -> loading st = false).
    { intros i Hi. destruct (loading st); [|reflexivity].
      destruct L as (_ & _ & Lc); [reflexivity|]. rewrite Lc in Hi.
      now apply hasId_nil in Hi. }
    destruct ev as [r|v|k|p|i|i|i| |]; simpl in Hen; simpl dispatch.
    + destruct (L Hen) as (Lp & Le & Lc).
      destruct (runEffects_frame
                  {| productsChanged := catalogueWritten r st;
                     categoryChanged := false; searchChanged := false |}
                  (settle r st)) as (-> & -> & _ & -> & -> & -> & _).
      unfold settle.
      destruct (tryBlock_cases r st) as [[data ->]|[err ->]]; simpl.
      * rewrite Le, Lc. split; [discriminate|].
        split; [intros H; now contradiction H|].
        split; [constructor | exact K].
      * rewrite Lp, Lc. split; [discriminate|].
        split; [intros _; reflexivity|].
        split; [constructor | exact K].
    + destruct (runEffects_frame
                  {| productsChanged := false; categoryChanged := false;
                     searchChanged := negb (searchQuery st =? v)%string |}
                  (setSearchQuery v st)) as (-> & -> & _ & -> & -> & -> & _).
      simpl. auto.
    + destruct (runEffects_frame
                  {| productsChanged := false;
                     categoryChanged := negb (selectedCategory st =? k)%string;
                     searchChanged := false |}
                  (setSelectedCategory k st)) as (-> & -> & _ & -> & -> & -> & _).
      simpl. auto.
    + destruct Hen as (shown & Hg & Hp).
      apply mainPanel_grid in Hg as (Hl & He & ->).
      rewrite V in Hp. apply visibleList_In in Hp. simpl.
      split; [rewrite Hl; discriminate|]. split; [exact E|].
      split; [|exact K].
      now apply (addToCart_products (fun q => In q (products st))).
    + simpl. split; [rewrite (Hline i Hen); discriminate|].
      split; [exact E|]. split; [|exact K].
      now apply (updateQuantity_products (fun q => In q (products st))).
    + simpl. split; [rewrite (Hline i Hen); discriminate|].
      split; [exact E|]. split; [|exact K].
      now apply (updateQuantity_products (fun q => In q (products st))).
    + simpl. split; [rewrite (Hline i Hen); discriminate|].
      split; [exact E|]. split; [|exact K].
      now apply (removeFromCart_products (fun q => In q (products st))).
    + simpl. auto.
    + simpl. auto.
Qed.

(** X14. Through the page the cart only ever receives products of the
    fetched catalogue: in every reachable state each line of the cart
    carries a product that is in the catalogue held by that state. *)
Theorem cart_holds_catalogue_products (st : AppState) :
  Reachable st ->
  Forall (fun item : CartItem => In (product item) (products st)) (cart st).
Proof. intros H. now destruct (reachable_invariant st H) as (_ & _ & _ & F & _). Qed.

(** X15. While the request is pending, and for good once it has failed
    with an error text, there is nothing to buy: the catalogue and the
    visible list are empty, the cart is empty, and no Add to Cart button
    is on the page. *)
Theorem nothing_to_buy_without_catalogue (st : AppState) :
  Reachable st ->
  loading st = true \/ error st <> ""%string ->
  products st = [] /\ filteredProducts st = [] /\ cart st = [] /\
  (forall p : Product, ~ enabled st (AddToCartClick p)).
Proof.
  intros HR Hor.
  destruct (reachable_invariant st HR) as (V & L & E & F & _).
  assert (Hp : products st = []).
  { destruct Hor as [Hl|He]; [now destruct (L Hl) | now apply E]. }
  split; [exact Hp|]. split; [|split].
  - rewrite V, Hp. reflexivity.
  - rewrite Hp in F. destruct (cart st) as [|x l]; [reflexivity|].
    inversion F as [|? ? Hx _]. contradiction Hx.
  - intros p (shown & Hg & _).
    apply mainPanel_grid in Hg as (Hl & He & _).
    destruct Hor as [Hl'|He']; [congruence | contradiction].
Qed.

(** X16. In every reachable state exactly one button of the category bar
    is highlighted. *)
Theorem one_category_highlighted (st : AppState) :
  Reachable st ->
  List.length
    (filter (fun c : Category => (selectedCategory st =? categoryId c)%string)
            categories) = 1%nat.
Proof.
  intros HR. destruct (reachable_invariant st HR) as (_ & _ & _ & _ & K).
  simpl in K.
  destruct K as [K|[K|[K|[K|[K|[]]]]]]; rewrite <- K; reflexivity.
Qed.

Lemma visibleList_unfiltered (C : list Product) : visibleList C "all" "" = C.
Proof.
  unfold visibleList. apply filter_keeps_all, Forall_forall.
  intros p _. simpl. rewrite toLowerCase_empty. apply includes_empty.
Qed.

Lemma mount_is_settle (r : FetchResult) (net : Network) :
  fst (mount (r :: net)) = settle r started.
Proof. reflexivity. Qed.

(** X17. What the products area shows once the pending request settles,
    in whatever state the page is at that moment (the visitor may have
    typed or picked a category while it was loading).  A decoded
    catalogue is shown as the grid of its products that pass the current
    category and search text, or as 'No products found' when none does.
    A rejected request or a non-success status shows the error panel with
    the failure text, except that a failure whose text is empty (an
    [Error] thrown with an empty message) shows 'No products found',
    without the Retry button. *)
Theorem panel_after_settle (st : AppState) (r : FetchResult) :
  Reachable st -> loading st = true ->
  (forall data : list Product,
     r = Resolved {| ok := true; json := Decoded data |} ->
     mainPanel (dispatch st (FetchSettled r)) =
       if (List.length
             (visibleList data (selectedCategory st) (searchQuery st)) =? 0)%nat
       then NoProductsPanel
       else ProductGrid
              (visibleList data (selectedCategory st) (searchQuery st))) /\
  (requestFailed r ->
     mainPanel (dispatch st (FetchSettled r)) =
       if (failureText r =? "")%string then NoProductsPanel
       else ErrorPanel (failureText r)).
Proof.
  intros HR Hl.
  destruct (reachable_invariant st HR) as (V & L & _).
  destruct (L Hl) as (Lp & Le & _).
  split.
  - intros data ->. unfold mainPanel, dispatch.
    change (catalogueWritten
              (Resolved {| ok := true; json := Decoded data |}) st)
      with true.
    rewrite runEffects_visibleList by reflexivity.
    destruct (runEffects_frame
                {| productsChanged := true; categoryChanged := false;
                   searchChanged := false |}
                (settle (Resolved {| ok := true; json := Decoded data |}) st))
      as (_ & _ & _ & _ & -> & -> & _).
    simpl. rewrite Le. reflexivity.
  - intros H.
    destruct (tryBlock_failed r st H) as (err & Ht & He & _ & Hf).
    assert (W : catalogueWritten r st = false)
      by (unfold catalogueWritten; now rewrite Ht).
    unfold dispatch. rewrite W, runEffects_unchanged.
    unfold mainPanel, settle. rewrite Ht.
    change (loading (setLoading false (catchBlock err st))) with false.
    change (error (setLoading false (catchBlock err st)))
      with (error (catchBlock err st)).
    change (filteredProducts (setLoading false (catchBlock err st)))
      with (filteredProducts (catchBlock err st)).
    rewrite He, Hf, V, Lp. cbv iota.
    destruct (failureText r =? "")%string; reflexivity.
Qed.

(** X18. A response with a success status whose body cannot be decoded
    is handled as a failure too: the error becomes the message of what
    [response.json()] threw (or the fixed fallback text when that is not
    an [Error]), the catalogue and the visible list are not written,
    loading ends and no second request is made. *)
Theorem undecodable_body_is_a_failure
    (e : Thrown) (net : Network) (st : AppState) :
  let r := Resolved {| ok := true; json := JsonThrows e |} in
  error (fst (fetchProducts (r :: net) st)) =
    match e with
    | ErrorObject message => message
    | OtherValue => "An error occurred while fetching products"%string
    end /\
  products (fst (fetchProducts (r :: net) st)) = products st /\
  filteredProducts (fst (fetchProducts (r :: net) st)) = filteredProducts st /\
  loading (fst (fetchProducts (r :: net) st)) = false /\
  snd (fetchProducts (r :: net) st) = net /\
  mainPanel (dispatch started (FetchSettled r)) =
    match e with
    | ErrorObject message =>
        if (message =? "")%string then NoProductsPanel else ErrorPanel message
    | OtherValue => ErrorPanel "An error occurred while fetching products"
    end.
Proof.
  destruct e as [message|]; repeat split.
  unfold mainPanel, dispatch. simpl.
  destruct (message =? "")%string; reflexivity.
Qed.

End ComponentProperties.

(** * The statements on Latin and Greek text

    From here on [toLowerCase] is [lowerLatinGreek]. *)

#[local] Existing Instance latinGreek.

Example search_is_case_insensitive :
  filteredProducts (runEffects searchTyped sampleView) = [shirt].
Proof. reflexivity. Qed.

Example category_then_search :
  filteredProducts
    (runEffects {| productsChanged := false; categoryChanged := true;
                   searchChanged := false |}
                (setSelectedCategory "jewelery" (setSearchQuery "gold" sampleView)))
  = [ring].
Proof. reflexivity. Qed.

Lemma visible_products_spec_witness :
  In shirt (filteredProducts (runEffects searchTyped sampleView)) /\
  Subseq (filteredProducts (runEffects searchTyped sampleView))
         [shirt; ring; drive].
Proof.
  destruct (visible_products_spec [shirt; ring; drive] "all" "SHIRT"
              sampleView searchTyped eq_refl eq_refl eq_refl eq_refl)
    as (_ & Hin & Hsub & _).
  split; [|exact Hsub].
  apply Hin. split; [simpl; now left|].
  apply visible_test_iff. reflexivity.
Defined.

(** C1, as it is worded, fails.  The title spelled by the Greek capitals
    O, D, O, S, A contains the search text O, D, O, S as it is written, so
    it contains it whatever the case of letters; yet the product is not in
    the visible list: the search text ends in sigma, which lower-cases to
    the final form, while the sigma inside the title lower-cases to the
    medial form. *)
Lemma visible_products_spec_counterexample :
  In streetMap (products greekView) /\
  selectedCategory greekView = "all"%string /\
  containsText (title streetMap) (searchQuery greekView) /\
  ~ In streetMap (filteredProducts (runEffects searchTyped greekView)).
Proof.
  split; [simpl; now left|]. split; [reflexivity|]. split.
  - exists ""%string, (text [913%N]). reflexivity.
  - vm_compute. intros [].
Qed.

(** Typing one more letter can bring a product back. *)
Example typing_more_can_reveal :
  filteredProducts (searchEffect (setSearchQuery ODOS greekView)) = [] /\
  filteredProducts (searchEffect (setSearchQuery ODOSA greekView))
    = [streetMap].
Proof. split; vm_compute; reflexivity. Qed.

Lemma no_filter_shows_catalogue_witness :
  filteredProducts
    (runEffects searchTyped (setSearchQuery "" sampleView))
  = [shirt; ring; drive].
Proof.
  apply (no_filter_shows_catalogue searchTyped (setSearchQuery "" sampleView));
    reflexivity.
Defined.

Lemma refining_the_filter_narrows_witness :
  Subseq (filteredProducts (searchEffect (setSearchQuery "d GOLD r" sampleView)))
         (filteredProducts (searchEffect (setSearchQuery "Gold" sampleView))).
Proof.
  destruct (refining_the_filter_narrows sampleView "Gold" "d GOLD r" "all")
    as (H & _).
  apply H. exists "d "%string, " r"%string. reflexivity.
Defined.

Lemma view_is_never_stale_witness :
  NoDup (map id (filteredProducts
                   (runEvents
                      [SearchChange "o";
                       FetchSettled
                         (Resolved {| ok := true;
                                      json := Decoded [shirt; ring; drive] |});
                       CategoryClick "jewelery"]))).
Proof.
  destruct (view_is_never_stale
              [SearchChange "o";
               FetchSettled
                 (Resolved {| ok := true;
                              json := Decoded [shirt; ring; drive] |});
               CategoryClick "jewelery"]) as (_ & _ & H).
  apply H. simpl.
  repeat (constructor; [simpl; intuition discriminate|]); constructor.
Defined.

Lemma cart_holds_catalogue_products_witness :
  Forall (fun item : CartItem => In (product item) [shirt; ring; drive])
         (cart (dispatch
                  (dispatch started
                     (FetchSettled
                        (Resolved {| ok := true;
                                     json := Decoded [shirt; ring; drive] |})))
                  (AddToCartClick ring))).
Proof.
  apply (cart_holds_catalogue_products
           (dispatch
              (dispatch started
                 (FetchSettled
                    (Resolved {| ok := true;
                                 json := Decoded [shirt; ring; drive] |})))
              (AddToCartClick ring))).
  apply Reachable_step; [apply Reachable_step; [apply Reachable_started|]|].
  - reflexivity.
  - exists [shirt; ring; drive]. split; [reflexivity|]. simpl. right. now left.
Defined.

Lemma nothing_to_buy_without_catalogue_witness :
  cart (dispatch (dispatch started (FetchSettled notFound))
                 (SearchChange "ring")) = [] /\
  filteredProducts (dispatch (dispatch started (FetchSettled notFound))
                             (SearchChange "ring")) = [].
Proof.
  destruct (nothing_to_buy_without_catalogue
              (dispatch (dispatch started (FetchSettled notFound))
                        (SearchChange "ring")))
    as (_ & Hf & Hc & _).
  - apply Reachable_step; [apply Reachable_step; [apply Reachable_started|]|].
    + reflexivity.
    + exact I.
  - right. discriminate.
  - split; assumption.
Defined.

Lemma one_category_highlighted_witness :
  List.length
    (filter (fun c : Category =>
               (selectedCategory (dispatch started (CategoryClick "jewelery"))
                =? categoryId c)%string)
            categories) = 1%nat.
Proof.
  apply (one_category_highlighted (dispatch started (CategoryClick "jewelery"))).
  apply Reachable_step; [apply Reachable_started|].
  simpl. right. right. now left.
Defined.

Lemma panel_after_settle_witness :
  mainPanel
    (dispatch (dispatch started (SearchChange "zz"))
       (FetchSettled
          (Resolved {| ok := true; json := Decoded [shirt; ring; drive] |})))
    = NoProductsPanel /\
  mainPanel (dispatch (dispatch started (SearchChange "zz"))
                      (FetchSettled notFound))
    = ErrorPanel "Failed to fetch products".
Proof.
  assert (R : Reachable (dispatch started (SearchChange "zz")))
    by (apply Reachable_step; [apply Reachable_started | exact I]).
  split.
  - destruct (panel_after_settle
                (dispatch started (SearchChange "zz"))
                (Resolved {| ok := true; json := Decoded [shirt; ring; drive] |})
                R eq_refl) as (H & _).
    rewrite (H [shirt; ring; drive] eq_refl). reflexivity.
  - destruct (panel_after_settle
                (dispatch started (SearchChange "zz")) notFound R eq_refl)
      as (_ & H).
    rewrite H; reflexivity.
Defined.

Example typed_before_the_catalogue_arrives :
  filteredProducts
    (runEvents
       [SearchChange "o";
        FetchSettled
          (Resolved {| ok := true; json := Decoded [shirt; ring; drive] |})])
  = [ring].
Proof. reflexivity. Qed.
